(** * Multi-Scale Line Detector (msld.py): a shallow embedding

    The Python module [msld.py] implements the MSLD vessel detector on
    numpy arrays.  The embedding below follows the source method by
    method.  Python exceptions are an explicit [result] type, the
    instance attributes are a record that the two mutating methods
    ([roc] and [learn_threshold]) thread through, and the numeric
    scalars are a parameter of the development: every definition is
    generic in a [Scalar] structure, with one instance for IEEE-754
    binary64 (Rocq's primitive floats, the numpy [float64] of the
    source) and one for exact rationals (the arithmetic the
    normalisation invariants are stated in).

    Three library functions have no source in the repository:
    [cv2.warpAffine] composed with [cv2.getRotationMatrix2D], and
    [sklearn.metrics.roc_curve], are parameters of the methods that call
    them; [scipy.ndimage.convolve] and the numpy reductions are given by
    their documented semantics.  Closed examples instantiate the
    resampling with the rotation by angle 0 and the ROC computation with
    a reference model of the library function ([Sklearn.roc_curve]). *)

From Stdlib Require Import ZArith QArith List Bool Lia Lqa Floats.
From stdpp Require Import gmap.
Import ListNotations.
Open Scope Z_scope.

(** ** Python exceptions *)

Inductive exn : Type :=
| ValueError
| ZeroDivisionError
| KeyError
| IndexError
| AttributeError.

Inductive result (A : Type) : Type :=
| Ok (a : A)
| Raise (e : exn).

Arguments Ok {A} a.
Arguments Raise {A} e.

Definition bind {A B : Type} (r : result A) (k : A -> result B) : result B :=
  match r with
  | Ok a => k a
  | Raise e => Raise e
  end.

Notation "'do' x <- e ; k" := (bind e (fun x => k))
  (at level 10, x name, e at level 100, k at level 200).
Notation "'do' ' p <- e ; k" := (bind e (fun p => k))
  (at level 10, p pattern, e at level 100, k at level 200).

Definition is_ok {A : Type} (r : result A) : bool :=
  match r with Ok _ => true | Raise _ => false end.

(** A [for] loop whose body may raise: the accumulator is threaded
    through the items in order and the first exception ends the loop. *)
Fixpoint for_each {A S : Type} (body : S -> A -> result S) (items : list A) (s : S)
  : result S :=
  match items with
  | [] => Ok s
  | a :: rest => do s' <- body s a; for_each body rest s'
  end.

(** ** Scalars *)

(** The operations the source applies to array elements and Python
    numbers.  [s_leb x y] is the comparison [x <= y]; as in IEEE-754 it
    is [false] as soon as one side is a NaN. *)
Class Scalar (F : Type) : Type := {
  s_of_Z : Z -> F;
  s_add : F -> F -> F;
  s_sub : F -> F -> F;
  s_mul : F -> F -> F;
  s_div : F -> F -> F;
  s_leb : F -> F -> bool
}.

Class ScalarSqrt (F : Type) `{Scalar F} : Type := {
  s_sqrt : F -> F
}.

Definition s_zero {F} `{Scalar F} : F := s_of_Z 0.
Definition s_one {F} `{Scalar F} : F := s_of_Z 1.

(** [x != x] is numpy's [isnan]. *)
Definition s_isnan {F} `{Scalar F} (x : F) : bool := negb (s_leb x x).

(** Conversion of a Python [int] (or numpy [int64]) to binary64. *)
Definition float_of_Z (z : Z) : float :=
  if z <? 0 then PrimFloat.opp (PrimFloat.of_uint63 (Uint63.of_Z (- z)))
  else PrimFloat.of_uint63 (Uint63.of_Z z).

#[export] Instance float_Scalar : Scalar float := {
  s_of_Z := float_of_Z;
  s_add := PrimFloat.add;
  s_sub := PrimFloat.sub;
  s_mul := PrimFloat.mul;
  s_div := PrimFloat.div;
  s_leb := PrimFloat.leb
}.

#[export] Instance float_ScalarSqrt : ScalarSqrt float := {
  s_sqrt := PrimFloat.sqrt
}.

(** Exact arithmetic.  [Qdiv] by zero is [0] in Rocq, where the source
    would produce a NaN: statements at this instance keep every divisor
    away from zero. *)
#[export] Instance Q_Scalar : Scalar Q := {
  s_of_Z := inject_Z;
  s_add := Qplus;
  s_sub := Qminus;
  s_mul := Qmult;
  s_div := Qdiv;
  s_leb := Qle_bool
}.

(** ** Arrays *)

(** A 2-D numpy array is the list of its rows; a boolean or float vector
    is a list. *)
Abbreviation matrix A := (list (list A)).

Definition shape_eq {A B : Type} (a : matrix A) (b : matrix B) : bool :=
  (length a =? length b)%nat
  && forallb (fun p => (length (fst p) =? length (snd p))%nat) (combine a b).

Definition mat_map {A B : Type} (f : A -> B) (m : matrix A) : matrix B :=
  (fun row : list A => f <$> row) <$> m.

Definition mat_zip {A B C : Type} (f : A -> B -> C) (a : matrix A) (b : matrix B)
  : matrix C :=
  zip_with (zip_with f) a b.

Definition flatten {A : Type} (m : matrix A) : list A := concat m.

(** ** numpy and scipy primitives *)

Section Numpy.
Context {F : Type} `{Scalar F}.

(** [np.zeros((h, w))], [np.ones((h, w))] and [np.zeros(a.shape)]. *)
Definition np_zeros (h w : nat) : matrix F := replicate h (replicate w s_zero).
Definition np_ones (h w : nat) : matrix F := replicate h (replicate w s_one).
Definition np_zeros_like {A : Type} (a : matrix A) : matrix F :=
  mat_map (fun _ => s_zero) a.

(** [a.sum()] and [np.mean(a)] over all the entries, accumulated in
    row-major order from [0.0]. *)
Definition vec_sum (v : list F) : F := fold_left s_add v s_zero.
Definition np_sum (a : matrix F) : F := vec_sum (flatten a).
Definition np_size (a : matrix F) : Z := Z.of_nat (length (flatten a)).
Definition np_mean (a : matrix F) : F := s_div (np_sum a) (s_of_Z (np_size a)).

(** [np.maximum(a, b)] on one pair of entries: a NaN in [a] wins,
    otherwise the larger one, [a] on ties. *)
Definition np_maximum (a b : F) : F :=
  if s_leb b a || s_isnan a then a else b.

(** [np.stack(arrays, axis=2)]: the k-th element of the list is the
    slice [[:, :, k]] of the stack; an empty list is refused. *)
Definition np_stack (arrays : list (matrix F)) : result (list (matrix F)) :=
  match arrays with
  | [] => Raise ValueError
  | _ => Ok arrays
  end.

(** [np.concatenate(arrays)] of 1-D arrays. *)
Definition np_concatenate {A : Type} (arrays : list (list A)) : result (list A) :=
  match arrays with
  | [] => Raise ValueError
  | _ => Ok (concat arrays)
  end.

(** Entry [(i, j)] of an array, and the index extension of scipy's
    default boundary mode [reflect]: (d c b a | a b c d | d c b a). *)
Definition get2 (a : matrix F) (i j : nat) : F := nth j (nth i a []) s_zero.

Definition reflect_index (n i : Z) : nat :=
  let r := i mod (2 * n) in
  Z.to_nat (if r <? n then r else 2 * n - 1 - r).

(** [scipy.ndimage.convolve(input, weights)] with the default mode and
    origin: [out[i, j] = sum over (a, b) of
    weights[a, b] * input[i + kh // 2 - a, j + kw // 2 - b]]. *)
Definition convolve_at (input weights : matrix F) (h w : Z) (i j : Z) : F :=
  let kh := Z.of_nat (length weights) in
  vec_sum
    (concat
       (imap (fun a wrow =>
                let kw := Z.of_nat (length wrow) in
                imap (fun b wab =>
                        s_mul wab
                          (get2 input
                             (reflect_index h (i + kh / 2 - Z.of_nat a))
                             (reflect_index w (j + kw / 2 - Z.of_nat b))))
                     wrow)
             weights)).

Definition convolve (input weights : matrix F) : matrix F :=
  let h := Z.of_nat (length input) in
  imap (fun i row =>
          let w := Z.of_nat (length row) in
          imap (fun j _ => convolve_at input weights h w (Z.of_nat i) (Z.of_nat j)) row)
       input.

(** [np.argmax(v)]: the first maximum, a NaN counting as larger than
    everything (the scan stops at the first NaN); an empty sequence is
    refused. *)
Fixpoint argmax_scan (rest : list F) (i : nat) (best : F) (best_i : nat) : nat :=
  match rest with
  | [] => best_i
  | x :: rest' =>
      if s_isnan best then best_i
      else if s_leb x best then argmax_scan rest' (S i) best best_i
      else argmax_scan rest' (S i) x i
  end.

Definition np_argmax (v : list F) : result nat :=
  match v with
  | [] => Raise ValueError
  | x :: rest => Ok (argmax_scan rest 1 x 0)
  end.
End Numpy.

Section NumpySqrt.
Context {F : Type} `{ScalarSqrt F}.

(** [np.std(a)]: the square root of the mean of the squared deviations
    from the mean (no degrees-of-freedom correction). *)
Definition np_std (a : matrix F) : F :=
  let m := np_mean a in
  let dev := mat_map (fun x => s_sub x m) a in
  s_sqrt (np_mean (mat_zip s_mul dev dev)).
End NumpySqrt.

(** ** Python built-ins *)

(** [range(start, stop, step)] for a non-zero step. *)
Definition py_range (start stop step : Z) : list Z :=
  let count :=
    if 0 <? step then (stop - start + step - 1) / step
    else (start - stop - step - 1) / (- step) in
  (fun k => start + Z.of_nat k * step) <$> seq 0 (Z.to_nat count).

(** [sum(v)] and [len(v)] on a boolean vector: the number of [True]s and
    the number of entries. *)
Definition py_sum (v : list bool) : Z := Z.of_nat (count_occ bool_dec v true).
Definition py_len {A : Type} (v : list A) : Z := Z.of_nat (length v).

(** ** The MSLD object *)

(** The attributes of an instance.  [line_detectors_masks] is the
    dictionary from a scale [l] to its stack, held as the list of the
    slices [[:, :, k]].  [y_true] does not exist on a fresh instance:
    [roc] creates it. *)
Record MSLD (F : Type) : Type := mkMSLD {
  W : Z;
  L : list Z;
  n_orientation : Z;
  threshold : F;
  avg_mask : matrix F;
  line_detectors_masks : gmap Z (list (matrix F));
  y_true : option (list bool)
}.

Arguments mkMSLD {F}.
Arguments W {F}.
Arguments L {F}.
Arguments n_orientation {F}.
Arguments threshold {F}.
Arguments avg_mask {F}.
Arguments line_detectors_masks {F}.
Arguments y_true {F}.

(** A dataset sample: the fields ["image"], ["label"] and ["mask"] of
    the dictionary.  The image is the 2-D intensity map handed to the
    detector. *)
Record sample (F : Type) : Type := mkSample {
  image : matrix F;
  label : matrix bool;
  mask : matrix bool
}.

Arguments mkSample {F}.
Arguments image {F}.
Arguments label {F}.
Arguments mask {F}.

(** What a method hands back: an array, or the [...] placeholder of a
    body that was left to be written. *)
Inductive pyobject : Type :=
| PyEllipsis
| PyBoolArray (a : matrix bool).

Section Constructor.
Context {F : Type} `{Scalar F}.

(** [cv2.warpAffine(src, cv2.getRotationMatrix2D(center, angle, 1), dsize)]:
    the resampling of [src] rotated by [angle] degrees about [center]. *)
Variable warp_rotation : matrix F -> Z * Z -> Z -> Z * Z -> matrix F.

(** The horizontal line of length [l]: zeros, and [1/l] on row [l // 2].
    The source stores the kernels as [float32] arrays; here they carry
    the scalar type of the development. *)
Definition line_detector (l : Z) : matrix F :=
  let ligne_centrale := l / 2 in
  imap (fun i row =>
          if Z.of_nat i =? ligne_centrale
          then (fun _ => s_div (s_of_Z 1) (s_of_Z l)) <$> row
          else row)
       (np_zeros (Z.to_nat l) (Z.to_nat l)).

(** [range(0, 180, int(180 / n_orientation))]: the quotient is taken
    in floating point and truncated, which for integers is the
    quotient rounded toward zero. *)
Definition orientation_angles (n : Z) : result (list Z) :=
  if n =? 0 then Raise ZeroDivisionError
  else
    let step := Z.quot 180 n in
    if step =? 0 then Raise ValueError else Ok (py_range 0 180 step).

Definition rotated_mask (l angle : Z) : matrix F :=
  warp_rotation (line_detector l) (l / 2, l / 2) angle (l, l).

Definition normalized_mask (l angle : Z) : matrix F :=
  let rotated := rotated_mask l angle in
  mat_map (fun x => s_div x (np_sum rotated)) rotated.

(** The body of the loop [for l in L] of the constructor. *)
Definition line_detector_stack (n : Z) (l : Z) : result (list (matrix F)) :=
  if l <? 0 then Raise ValueError
  else if l =? 0 then Raise ZeroDivisionError
  else
    do angles <- orientation_angles n;
    np_stack (normalized_mask l <$> angles).

Definition build_masks (n : Z) (scales : list Z)
  : result (gmap Z (list (matrix F))) :=
  for_each (fun d l => do stack <- line_detector_stack n l; Ok (<[l := stack]> d))
           scales ∅.

(** [MSLD.__init__]. *)
Definition MSLD_init (w : Z) (scales : list Z) (n : Z) : result (MSLD F) :=
  if w <? 0 then Raise ValueError
  else
    let avg :=
      mat_map (fun x => s_div (s_mul x (s_of_Z 1)) (s_of_Z (w ^ 2)))
              (np_ones (Z.to_nat w) (Z.to_nat w)) in
    do masks <- build_masks n scales;
    Ok {| W := w;
          L := scales;
          n_orientation := n;
          threshold := s_div (s_of_Z 1) (s_of_Z 2);
          avg_mask := avg;
          line_detectors_masks := masks;
          y_true := None |}.
End Constructor.

(** ** The detector *)

Definition dict_get {V : Type} (d : gmap Z V) (k : Z) : result V :=
  match d !! k with
  | Some v => Ok v
  | None => Raise KeyError
  end.

(** [stack[:, :, n]] for [0 <= n]. *)
Definition slice {A : Type} (stack : list (matrix A)) (n : Z) : result (matrix A) :=
  match stack !! Z.to_nat n with
  | Some s => Ok s
  | None => Raise IndexError
  end.

Definition list_index {A : Type} (v : list A) (i : nat) : result A :=
  match v !! i with
  | Some x => Ok x
  | None => Raise IndexError
  end.

(** [a[m]] for a boolean array [m] of the shape of [a]: the entries of
    [a] where [m] is true, in row-major order. *)
Definition roi_select {A : Type} (a : matrix A) (m : matrix bool) : list A :=
  map fst (List.filter snd (combine (flatten a) (flatten m))).

Definition bool_index {A : Type} (a : matrix A) (m : matrix bool) : result (list A) :=
  if shape_eq a m then Ok (roi_select a m) else Raise IndexError.

Section Detector.
Context {F : Type} `{ScalarSqrt F}.

(** [MSLD.basic_line_detector], first part: the raw response
    [R = matrice_max - I_avg]. *)
Definition raw_response (self : MSLD F) (grey_lvl : matrix F) (l : Z)
  : result (matrix F) :=
  let I_avg := convolve grey_lvl (avg_mask self) in
  do stack <- dict_get (line_detectors_masks self) l;
  do matrice_max <-
    for_each (fun matrice_max n =>
                do kernel <- slice stack n;
                let convolution := convolve grey_lvl kernel in
                Ok (mat_zip np_maximum convolution matrice_max))
             (py_range 0 (n_orientation self) 1) (np_zeros_like grey_lvl);
  Ok (mat_zip s_sub matrice_max I_avg).

(** Second part: [R_prime = (R - np.mean(R)) / np.std(R)]. *)
Definition standardize (R : matrix F) : matrix F :=
  let mean_R := np_mean R in
  let std_R := np_std R in
  mat_map (fun x => s_div (s_sub x mean_R) std_R) R.

Definition basic_line_detector (self : MSLD F) (grey_lvl : matrix F) (l : Z)
  : result (matrix F) :=
  do R <- raw_response self grey_lvl l;
  Ok (standardize R).

(** [MSLD.multi_scale_line_detector]. *)
Definition multi_scale_line_detector (self : MSLD F) (image : matrix F)
  : result (matrix F) :=
  if n_orientation self + 1 =? 0 then Raise ZeroDivisionError
  else
    let coefficient := s_div (s_of_Z 1) (s_of_Z (n_orientation self + 1)) in
    do Rcombined <-
      for_each (fun Rcombined l =>
                  do reponse <- basic_line_detector self image l;
                  Ok (mat_zip s_add Rcombined reponse))
               (L self) (np_zeros_like image);
    Ok (mat_map (s_mul coefficient) (mat_zip s_add Rcombined image)).

(** [MSLD.segment_vessels]: the body is [vessels = ...]. *)
Definition segment_vessels (self : MSLD F) (image : matrix F) : MSLD F * pyobject :=
  (self, PyEllipsis).

(** [sklearn.metrics.roc_curve(y_true, y_score)]. *)
Variable roc_curve : list bool -> list F -> result (list F * list F * list F).

(** The body of the loop of [roc] over the samples, and the loop. *)
Definition roc_step (self : MSLD F) (acc : list (list bool) * list (list F))
  (d : sample F) : result (list (list bool) * list (list F)) :=
  do prediction <- multi_scale_line_detector self (image d);
  do label <- bool_index (label d) (mask d);
  do prediction <- bool_index prediction (mask d);
  Ok (fst acc ++ [label], snd acc ++ [prediction]).

Definition roc_collect (self : MSLD F) (dataset : list (sample F))
  : result (list (list bool) * list (list F)) :=
  for_each (roc_step self) dataset ([], []).

Definition set_y_true (self : MSLD F) (v : list bool) : MSLD F :=
  mkMSLD (W self) (L self) (n_orientation self) (threshold self) (avg_mask self)
         (line_detectors_masks self) (Some v).

Definition set_threshold (self : MSLD F) (t : F) : MSLD F :=
  mkMSLD (W self) (L self) (n_orientation self) t (avg_mask self)
         (line_detectors_masks self) (y_true self).

(** [MSLD.roc]: the instance after the call, and what the call
    returns or raises. *)
Definition roc (self : MSLD F) (dataset : list (sample F))
  : MSLD F * result (list F * list F * list F) :=
  match (do acc <- roc_collect self dataset;
         do y_true <- np_concatenate (fst acc);
         do y_pred <- np_concatenate (snd acc);
         Ok (y_true, y_pred)) with
  | Raise e => (self, Raise e)
  | Ok (y_true, y_pred) => (set_y_true self y_true, roc_curve y_true y_pred)
  end.

(** One entry of the list [accuracies] of [learn_threshold]. *)
Definition accuracy_at (y_true : list bool) (tpr_i fpr_i : F) : F :=
  s_div
    (s_add (s_mul tpr_i (s_of_Z (py_sum y_true)))
           (s_mul (s_sub (s_of_Z 1) fpr_i) (s_of_Z (py_len y_true - py_sum y_true))))
    (s_of_Z (py_len y_true)).

(** [MSLD.learn_threshold]. *)
Definition learn_threshold (self : MSLD F) (dataset : list (sample F))
  : MSLD F * result (F * F) :=
  match roc self dataset with
  | (self1, Raise e) => (self1, Raise e)
  | (self1, Ok (fpr, tpr, thresholds)) =>
      match y_true self1 with
      | None => (self1, Raise AttributeError)
      | Some yt =>
          let accuracies := zip_with (accuracy_at yt) tpr fpr in
          match (do best_threshold_index <- np_argmax accuracies;
                 do threshold <- list_index thresholds best_threshold_index;
                 do accuracy <- list_index accuracies best_threshold_index;
                 Ok (threshold, accuracy)) with
          | Raise e => (self1, Raise e)
          | Ok (threshold, accuracy) =>
              (set_threshold self1 threshold, Ok (threshold, accuracy))
          end
      end
  end.
End Detector.

(** ** The module-level [dice] *)

Definition count_true (a : matrix bool) : Z := py_sum (flatten a).

(** [2 * np.sum(targets * predictions) / (targets.sum() + predictions.sum())]:
    the three sums are integer counts and [/] is numpy's true division
    of two integers, carried out in floating point.  Arrays of different
    shapes are refused (numpy's broadcasting of compatible shapes is left
    out: the function is documented for arrays of one shape). *)
Definition dice {F : Type} `{Scalar F} (targets predictions : matrix bool) : result F :=
  if shape_eq targets predictions
  then Ok (s_div (s_of_Z (2 * count_true (mat_zip andb targets predictions)))
                 (s_of_Z (count_true targets + count_true predictions)))
  else Raise ValueError.

(** ** Reference points for the statements *)

(** The shape of an array (the length of every row) and its entry at a
    position, when the position is inside the array. *)
Definition shape {A : Type} (a : matrix A) : list nat := length <$> a.

Definition entry {A : Type} (a : matrix A) (i j : nat) : option A :=
  match a !! i with
  | Some row => row !! j
  | None => None
  end.

Definition all_entries {A : Type} (P : A -> Prop) (a : matrix A) : Prop :=
  Forall (Forall P) a.

(** The combination rule as the design states it, pixel by pixel:
    [(1 / (n_orientation + 1)) * (sum over the scales of the response at
    the pixel + the image at the pixel)]. *)
Definition combination_rule {F : Type} `{Scalar F} (n : Z) (responses : list (matrix F))
  (image : matrix F) : matrix F :=
  imap (fun i row =>
          imap (fun j x =>
                  s_mul (s_div (s_of_Z 1) (s_of_Z (n + 1)))
                        (s_add (vec_sum ((fun r => get2 r i j) <$> responses)) x))
               row)
       image.

(** The pixels of the region of interest of a dataset with their label,
    and the number of them that carry a given label. *)
Definition roi_labels {F : Type} (dataset : list (sample F)) : list bool :=
  flat_map (fun d => roi_select (label d) (mask d)) dataset.

Definition roi_count {F : Type} (v : bool) (dataset : list (sample F)) : Z :=
  Z.of_nat (length (List.filter (Bool.eqb v) (roi_labels dataset))).

(** The accuracy of one ROC point from the class sizes [P] and [N]. *)
Definition roc_accuracy {F : Type} `{Scalar F} (P N : Z) (tpr_i fpr_i : F) : F :=
  s_div (s_add (s_mul tpr_i (s_of_Z P)) (s_mul (s_sub (s_of_Z 1) fpr_i) (s_of_Z N)))
        (s_of_Z (P + N)).

(** The order facts of the comparison that [np.argmax] relies on: away
    from NaN it is a total preorder. *)
Class ScalarOrder (F : Type) `{Scalar F} : Prop := {
  s_leb_trans : forall x y z : F,
    s_leb x y = true -> s_leb y z = true -> s_leb x z = true;
  s_leb_total : forall x y : F,
    s_isnan x = false -> s_isnan y = false -> s_leb x y = true \/ s_leb y x = true
}.

(** Python's [int(x)] on a finite float: truncation toward zero. *)
Definition py_int (x : float) : option Z :=
  match Prim2SF x with
  | S754_zero _ => Some 0
  | S754_finite s m e =>
      let v := if 0 <=? e then Z.pos m * 2 ^ e else Z.pos m / 2 ^ (- e) in
      Some (if s then - v else v)
  | _ => None
  end.

(** The rotation by no angle at all, which resamples every pixel onto
    itself: the instance of the resampling used to run the constructor
    on configurations with a single orientation. *)
Definition warp_identity {F : Type} (src : matrix F) (center : Z * Z) (angle : Z)
  (dsize : Z * Z) : matrix F := src.

(** ** A reference model of [sklearn.metrics.roc_curve]

    Used to run [roc] and [learn_threshold] on concrete datasets.  The
    candidate thresholds are the distinct scores in decreasing order;
    at each one the true and false positives are counted; collinear
    intermediate points are dropped; the point [(0, 0)] with threshold
    [inf] is put in front; the counts are divided by the class sizes,
    and a class that is absent gives a vector of NaN (the library only
    warns).  Scores that are not finite, and empty inputs, are refused. *)
Module Sklearn.
Definition is_finite (x : float) : bool :=
  PrimFloat.ltb (PrimFloat.abs x) PrimFloat.infinity.

Fixpoint insert_desc (x : float) (sorted : list float) : list float :=
  match sorted with
  | [] => [x]
  | y :: rest =>
      if PrimFloat.ltb y x then x :: sorted
      else if PrimFloat.eqb y x then sorted
      else y :: insert_desc x rest
  end.

Definition distinct_desc (scores : list float) : list float :=
  fold_right insert_desc [] scores.

(** The number of samples of class [cls] whose score reaches [t]. *)
Definition count_reaching (y_true : list bool) (y_score : list float) (cls : bool)
  (t : float) : Z :=
  Z.of_nat (length (List.filter (fun p => Bool.eqb (fst p) cls && PrimFloat.leb t (snd p))
                                (combine y_true y_score))).

(** A curve point: false positives, true positives, threshold. *)
Definition point : Type := Z * Z * float.

Definition second_difference (a b c : Z) : Z := c - 2 * b + a.

Fixpoint drop_intermediate (prev : point) (pts : list point) : list point :=
  match pts with
  | [] => []
  | cur :: rest =>
      match rest with
      | [] => [cur]
      | next :: _ =>
          let '(f0, t0, _) := prev in
          let '(f1, t1, _) := cur in
          let '(f2, t2, _) := next in
          if (second_difference f0 f1 f2 =? 0) && (second_difference t0 t1 t2 =? 0)
          then drop_intermediate cur rest
          else cur :: drop_intermediate cur rest
      end
  end.

Definition rates (counts : list Z) : list float :=
  let total := List.last counts 0 in
  if total <=? 0 then (fun _ => PrimFloat.nan) <$> counts
  else (fun c => PrimFloat.div (float_of_Z c) (float_of_Z total)) <$> counts.

Definition roc_curve (y_true : list bool) (y_score : list float)
  : result (list float * list float * list float) :=
  if negb (length y_true =? length y_score)%nat then Raise ValueError
  else if negb (forallb is_finite y_score) then Raise ValueError
  else
    match distinct_desc y_score with
    | [] => Raise IndexError
    | thresholds =>
        let pts : list point :=
          (fun t => (count_reaching y_true y_score false t,
                     count_reaching y_true y_score true t, t)) <$> thresholds in
        let kept :=
          match pts with
          | first :: (_ :: _ :: _) as rest => first :: drop_intermediate first rest
          | _ => pts
          end in
        let fps := 0 :: ((fun p : point => fst (fst p)) <$> kept) in
        let tps := 0 :: ((fun p : point => snd (fst p)) <$> kept) in
        let thr := PrimFloat.infinity :: ((fun p : point => snd p) <$> kept) in
        Ok (rates fps, rates tps, thr)
    end.
End Sklearn.

(** The instance invariant the constructor establishes and no method
    breaks: every configured scale has a stack with at least
    [n_orientation] slices. *)
Definition well_formed {F : Type} (self : MSLD F) : Prop :=
  forall l, l ∈ L self ->
    exists stack,
      line_detectors_masks self !! l = Some stack /\
      (Z.to_nat (n_orientation self) <= length stack)%nat.

(** A sample whose image, label and mask have one shape. *)
Definition well_shaped {F : Type} (d : sample F) : Prop :=
  shape (image d) = shape (mask d) /\ shape (label d) = shape (mask d).

(** [v !! i] is a first maximum of [v]: nothing in [v] is above it and
    everything before position [i] is strictly below. *)
Definition first_maximum {F : Type} `{Scalar F} (v : list F) (i : nat) (a : F) : Prop :=
  v !! i = Some a /\
  Forall (fun y => s_leb y a = true) v /\
  forall k y, (k < i)%nat -> v !! k = Some y -> s_leb a y = false.

(** ** Concrete data *)

(** A 2 x 3 intensity map, a dataset of one sample over it with both
    classes inside the region of interest, and the same sample with no
    vessel pixel at all. *)
Definition example_image : matrix float :=
  [[0.5; 1; 0.25]; [0; 0.75; 0.5]]%float.

Definition example_dataset : list (sample float) :=
  [mkSample example_image
            [[true; false; false]; [false; true; false]]
            [[true; true; true]; [true; true; false]]].

Definition one_class_dataset : list (sample float) :=
  [mkSample example_image
            [[false; false; false]; [false; false; false]]
            [[true; true; true]; [true; true; false]]].

(** A constant map. *)
Definition constant_image : matrix float :=
  [[0.5; 0.5; 0.5]; [0.5; 0.5; 0.5]]%float.

(** ** What is assumed of the resampling

    Two facts about the rotation of a kernel by [cv2.warpAffine], in
    exact arithmetic.  Bilinear interpolation weights are nonnegative
    and the border is filled with zeros, so a nonnegative source gives a
    nonnegative result; and the centre of the rotation is mapped onto
    itself, so the pixel at the centre keeps its value. *)
Definition resampling_nonnegative
  (warp_rotation : matrix Q -> Z * Z -> Z -> Z * Z -> matrix Q) : Prop :=
  forall src center angle dsize,
    all_entries (fun x => (0 <= x)%Q) src ->
    all_entries (fun x => (0 <= x)%Q) (warp_rotation src center angle dsize).

Definition rotation_fixes_center
  (warp_rotation : matrix Q -> Z * Z -> Z -> Z * Z -> matrix Q) : Prop :=
  forall src cx cy angle width height x,
    0 <= cx < width -> 0 <= cy < height ->
    entry src (Z.to_nat cy) (Z.to_nat cx) = Some x ->
    exists y,
      entry (warp_rotation src (cx, cy) angle (width, height)) (Z.to_nat cy) (Z.to_nat cx)
      = Some y /\ (y == x)%Q.

(** ** Reference points for the per-pixel response *)

(** The response of the line detector at one pixel, as the design
    describes it: the largest of 0 and of the convolutions of the image
    with the kernels at that pixel, minus the local average there. *)
Definition line_response {F : Type} `{Scalar F} (kernels : list (matrix F))
  (avg : matrix F) (image : matrix F) (i j : nat) : F :=
  let h := Z.of_nat (length image) in
  let w := Z.of_nat (length (nth i image [])) in
  s_sub
    (fold_left (fun m kernel =>
                  np_maximum (convolve_at image kernel h w (Z.of_nat i) (Z.of_nat j)) m)
               kernels s_zero)
    (convolve_at image avg h w (Z.of_nat i) (Z.of_nat j)).

(** The instance in which the stack of scale [l] is cut down to its
    first [n_orientation] slices. *)
Definition drop_surplus_slices {F : Type} (self : MSLD F) (l : Z) : MSLD F :=
  mkMSLD (W self) (L self) (n_orientation self) (threshold self) (avg_mask self)
         (alter (take (Z.to_nat (n_orientation self))) l (line_detectors_masks self))
         (y_true self).


(** Two instances that carry the same detector: they differ at most in
    [threshold] and [y_true]. *)
Definition same_detector {F : Type} (s s' : MSLD F) : Prop :=
  W s' = W s /\ L s' = L s /\ n_orientation s' = n_orientation s /\
  avg_mask s' = avg_mask s /\ line_detectors_masks s' = line_detectors_masks s.

(** ** The model on small inputs *)

Example py_range_by_25 : py_range 0 180 25 = [0; 25; 50; 75; 100; 125; 150; 175].
Proof. reflexivity. Qed.

Example orientation_angles_12 :
  orientation_angles 12 = Ok [0; 15; 30; 45; 60; 75; 90; 105; 120; 135; 150; 165].
Proof. reflexivity. Qed.

Example orientation_angles_181 : orientation_angles 181 = Raise ValueError.
Proof. reflexivity. Qed.

Example reflect_index_border :
  (fun i => reflect_index 4 i) <$> [-2; -1; 0; 3; 4; 5] = [1; 0; 0; 3; 3; 2]%nat.
Proof. reflexivity. Qed.

Example convolve_small :
  convolve (F:=float) [[1; 2; 3]; [4; 5; 6]]%float [[0; 0; 0]; [0; 1; 0]; [1; 0; 0]]%float
  = [[3; 5; 6]; [6; 8; 9]]%float.
Proof. vm_compute. reflexivity. Qed.

Example np_argmax_ties : np_argmax (F:=float) [0.5; 2; 1; 2]%float = Ok 1%nat.
Proof. vm_compute. reflexivity. Qed.

Example np_argmax_nan : np_argmax (F:=float) [0.5; nan; 3]%float = Ok 1%nat.
Proof. vm_compute. reflexivity. Qed.

Example roc_curve_four_samples :
  Sklearn.roc_curve [false; false; true; true] [0.125; 0.5; 0.375; 0.75]%float
  = Ok ([0; 0; 0.5; 0.5; 1]%float, [0; 0.5; 0.5; 1; 1]%float,
        [infinity; 0.75; 0.5; 0.375; 0.125]%float).
Proof. vm_compute. reflexivity. Qed.

Example dice_overlap :
  dice (F:=float) [[true; false; false; false]] [[true; true; true; false]] = Ok 0.5%float.
Proof. vm_compute. reflexivity. Qed.

Example dice_self :
  dice (F:=float) [[true; false]; [true; true]] [[true; false]; [true; true]] = Ok 1%float.
Proof. vm_compute. reflexivity. Qed.

(** ** Loops *)

Lemma bind_ok {A B : Type} (r : result A) (k : A -> result B) (b : B) :
  bind r k = Ok b -> exists a, r = Ok a /\ k a = Ok b.
Proof. destruct r as [a|e]; simpl; [eauto | discriminate]. Qed.

(** A loop whose body succeeds on every item and keeps an invariant
    runs to the end and establishes the invariant. *)
Lemma for_each_invariant {A S : Type} (P : S -> Prop) (body : S -> A -> result S)
  (items : list A) :
  (forall s a, a ∈ items -> P s -> exists s', body s a = Ok s' /\ P s') ->
  forall s, P s -> exists s', for_each body items s = Ok s' /\ P s'.
Proof.
  induction items as [|a items IH]; intros Hbody s Hs; simpl.
  - eauto.
  - destruct (Hbody s a) as (s1 & -> & Hs1); [left | assumption |].
    simpl. apply IH; [|assumption].
    intros s2 b Hb. apply Hbody. now right.
Qed.

(** ** Shapes and entries *)

Section Shapes.
Context {A B C : Type}.

Lemma shape_mat_map (f : A -> B) (a : matrix A) : shape (mat_map f a) = shape a.
Proof.
  unfold shape, mat_map. rewrite <- list_fmap_compose.
  apply list_fmap_ext. intros _ row _. simpl. apply length_fmap.
Qed.

Lemma shape_mat_zip (f : A -> B -> C) (a : matrix A) (b : matrix B) :
  shape a = shape b -> shape (mat_zip f a b) = shape a.
Proof.
  unfold shape, mat_zip. revert b.
  induction a as [|ra a IH]; intros [|rb b] Hs; simpl in *; try discriminate; [reflexivity|].
  injection Hs as Hr Hs. f_equal; [|now apply IH].
  rewrite length_zip_with. lia.
Qed.

Lemma shape_imap (g : nat -> list A -> list B) (a : matrix A) :
  (forall i row, length (g i row) = length row) -> shape (imap g a) = shape a.
Proof.
  unfold shape. revert g.
  induction a as [|ra a IH]; intros g Hg; simpl; [reflexivity|].
  f_equal; [apply Hg|]. apply IH. intros i row. apply Hg.
Qed.

Lemma entry_mat_map (f : A -> B) (a : matrix A) (i j : nat) :
  entry (mat_map f a) i j = f <$> entry a i j.
Proof.
  unfold entry, mat_map. rewrite list_lookup_fmap.
  destruct (a !! i) as [row|]; simpl; [apply list_lookup_fmap | reflexivity].
Qed.

Lemma entry_mat_zip (f : A -> B -> C) (a : matrix A) (b : matrix B) (i j : nat) :
  entry (mat_zip f a b) i j =
  match entry a i j, entry b i j with
  | Some x, Some y => Some (f x y)
  | _, _ => None
  end.
Proof.
  unfold entry, mat_zip. rewrite lookup_zip_with.
  destruct (a !! i) as [ra|]; simpl; [|reflexivity].
  destruct (b !! i) as [rb|]; simpl.
  - rewrite lookup_zip_with.
    destruct (ra !! j); simpl; [|reflexivity]. destruct (rb !! j); reflexivity.
  - destruct (ra !! j); reflexivity.
Qed.

Lemma entry_imap (g : nat -> nat -> A -> B) (a : matrix A) (i j : nat) :
  entry (imap (fun i row => imap (g i) row) a) i j = g i j <$> entry a i j.
Proof.
  unfold entry. rewrite list_lookup_imap.
  destruct (a !! i) as [row|]; simpl; [apply list_lookup_imap | reflexivity].
Qed.
End Shapes.

(** Whether a position is inside an array depends on the shape only. *)
Lemma entry_is_Some {A : Type} (a : matrix A) (i j : nat) :
  is_Some (entry a i j) <-> exists n, shape a !! i = Some n /\ (j < n)%nat.
Proof.
  unfold entry, shape. rewrite list_lookup_fmap.
  destruct (a !! i) as [row|]; simpl.
  - rewrite lookup_lt_is_Some. split.
    + intros Hj. eauto.
    + intros (n & [= <-] & Hj). exact Hj.
  - split; [intros [x Hx]; discriminate | intros (n & Hn & _); discriminate].
Qed.

Lemma entry_same_shape {A B : Type} (a : matrix A) (b : matrix B) (i j : nat) :
  shape a = shape b -> is_Some (entry a i j) -> is_Some (entry b i j).
Proof. intros Hs. rewrite !entry_is_Some, Hs. trivial. Qed.

(** Two arrays of one shape with the same entries are equal. *)
Lemma mat_eq {A : Type} (a b : matrix A) :
  shape a = shape b -> (forall i j, entry a i j = entry b i j) -> a = b.
Proof.
  intros Hs He. apply list_eq. intros i.
  assert (Hi : shape a !! i = shape b !! i) by now rewrite Hs.
  unfold shape in Hi. rewrite !list_lookup_fmap in Hi.
  specialize (He i). unfold entry in He.
  destruct (a !! i) as [ra|], (b !! i) as [rb|]; simpl in *; try discriminate; [|reflexivity].
  f_equal. apply list_eq. exact He.
Qed.

Lemma get2_entry {F : Type} `{Scalar F} (a : matrix F) (i j : nat) (x : F) :
  entry a i j = Some x -> get2 a i j = x.
Proof.
  unfold entry, get2. intros He.
  destruct (a !! i) as [row|] eqn:Hi; [|discriminate].
  rewrite (nth_lookup_Some _ _ _ _ Hi). now apply nth_lookup_Some.
Qed.

(** ** The dimensions of what the detector computes *)

Section DetectorShapes.
Context {F : Type} `{Scalar F}.

Lemma shape_np_zeros_like {A : Type} (a : matrix A) :
  shape (np_zeros_like (F:=F) a) = shape a.
Proof. apply shape_mat_map. Qed.

Lemma shape_convolve (input weights : matrix F) :
  shape (convolve input weights) = shape input.
Proof. unfold convolve. apply shape_imap. intros i row. apply length_imap. Qed.

Lemma entry_np_zeros_like {A : Type} (a : matrix A) (i j : nat) :
  entry (np_zeros_like (F:=F) a) i j = (fun _ => s_zero) <$> entry a i j.
Proof. apply entry_mat_map. Qed.
End DetectorShapes.

(** ** Python ranges *)

Lemma elem_of_py_range_up (stop k : Z) :
  k ∈ py_range 0 stop 1 -> 0 <= k < stop.
Proof.
  unfold py_range. simpl. intros Hk.
  apply list_elem_of_fmap in Hk as (i & -> & Hi).
  apply elem_of_seq in Hi.
  replace (stop - 0 + 1 - 1) with stop in Hi by lia.
  rewrite Z.div_1_r in Hi. lia.
Qed.

Lemma length_py_range (start stop step : Z) :
  0 < step ->
  length (py_range start stop step) = Z.to_nat ((stop - start + step - 1) / step).
Proof.
  intros Hs. unfold py_range.
  destruct (0 <? step) eqn:E; [|lia].
  now rewrite length_fmap, length_seq.
Qed.

Lemma lookup_py_range (start stop step : Z) (k : nat) :
  0 < step -> (k < length (py_range start stop step))%nat ->
  py_range start stop step !! k = Some (start + Z.of_nat k * step).
Proof.
  intros Hs Hk. rewrite length_py_range in Hk by assumption.
  unfold py_range. destruct (0 <? step) eqn:E; [|lia].
  rewrite list_lookup_fmap, lookup_seq_lt by assumption. reflexivity.
Qed.

(** ** What a successful construction establishes *)

Section ConstructorFacts.
Context {F : Type} `{Scalar F}.
Variable warp_rotation : matrix F -> Z * Z -> Z -> Z * Z -> matrix F.

Lemma np_stack_ok (arrays stack : list (matrix F)) :
  np_stack arrays = Ok stack -> stack = arrays.
Proof. destruct arrays; simpl; [discriminate | now intros [= <-]]. Qed.

Lemma orientation_angles_ok (n : Z) (angles : list Z) :
  orientation_angles n = Ok angles ->
  n <> 0 /\ Z.quot 180 n <> 0 /\ angles = py_range 0 180 (Z.quot 180 n).
Proof.
  unfold orientation_angles.
  destruct (n =? 0) eqn:En; [discriminate|].
  destruct (Z.quot 180 n =? 0) eqn:Es; [discriminate|].
  intros [= <-]. split; [lia | split; [lia | reflexivity]].
Qed.

Lemma py_range_negative_step (stop step : Z) :
  0 < stop -> step < 0 -> py_range 0 stop step = [].
Proof.
  intros Hstop Hstep. unfold py_range.
  destruct (0 <? step) eqn:E; [lia|].
  assert (Hc : (0 - stop - step - 1) / (- step) <= 0).
  { apply Z.lt_succ_r. apply Z.div_lt_upper_bound; lia. }
  replace (Z.to_nat _) with 0%nat by lia. reflexivity.
Qed.

(** The stack of one scale: when it is built at all, the scale and the
    orientation count are positive, the count is at most 180, and the
    stack has at least [n_orientation] slices. *)
Lemma line_detector_stack_ok (n l : Z) (stack : list (matrix F)) :
  line_detector_stack warp_rotation n l = Ok stack ->
  1 <= l /\ 1 <= n <= 180 /\
  stack = normalized_mask warp_rotation l <$> py_range 0 180 (180 / n) /\
  (Z.to_nat n <= length stack)%nat.
Proof.
  unfold line_detector_stack.
  destruct (l <? 0) eqn:El; [discriminate|].
  destruct (l =? 0) eqn:El0; [discriminate|].
  intros Hb. apply bind_ok in Hb as (angles & Ha & Hst).
  apply orientation_angles_ok in Ha as (Hn & Hstep & ->).
  assert (Hpos : 1 <= n).
  { destruct (Z.lt_ge_cases n 1) as [Hneg|]; [exfalso|assumption].
    assert (Z.quot 180 n < 0).
    { pose proof (Z.quot_opp_r 180 n Hn) as Ho.
      assert (0 <= Z.quot 180 (- n)) by (apply Z.quot_pos; lia).
      lia. }
    rewrite py_range_negative_step in Hst by lia. discriminate. }
  rewrite Z.quot_div_nonneg in * by lia.
  assert (Hle : n <= 180).
  { destruct (Z.le_gt_cases n 180); [assumption|].
    rewrite Z.div_small in Hstep by lia. congruence. }
  assert (Hstep1 : 1 <= 180 / n) by (pose proof (Z.div_pos 180 n); lia).
  assert (Hlen : (Z.to_nat n <= length (py_range 0 180 (180 / n)))%nat).
  { rewrite length_py_range by lia.
    apply Z2Nat.inj_le; [lia| |].
    - apply Z.div_pos; lia.
    - apply Z.div_le_lower_bound; [lia|].
      pose proof (Z.mul_div_le 180 n). lia. }
  apply np_stack_ok in Hst as ->.
  repeat split; try lia. rewrite length_fmap. exact Hlen.
Qed.

Lemma build_masks_from (n : Z) (scales : list Z) :
  forall d0 d : gmap Z (list (matrix F)),
  for_each (fun d l => do stack <- line_detector_stack warp_rotation n l;
                       Ok (<[l := stack]> d)) scales d0 = Ok d ->
  forall l,
    (l ∈ scales ->
     exists stack, line_detector_stack warp_rotation n l = Ok stack /\ d !! l = Some stack)
    /\ (l ∉ scales -> d !! l = d0 !! l).
Proof.
  induction scales as [|a rest IH]; intros d0 d Hloop l; simpl in Hloop.
  - injection Hloop as <-. split; [intros Hin; inversion Hin | reflexivity].
  - apply bind_ok in Hloop as (d1 & Hbody & Hrest).
    apply bind_ok in Hbody as (sa & Hsa & [= <-]).
    destruct (IH _ _ Hrest l) as [Hin Hout].
    split.
    + intros Hl. destruct (decide (l ∈ rest)) as [Hr|Hr]; [now apply Hin|].
      apply elem_of_cons in Hl as [-> | Hl]; [|contradiction].
      exists sa. split; [assumption|].
      rewrite (Hout Hr). apply lookup_insert_eq.
    + intros Hl. apply not_elem_of_cons in Hl as [Hne Hr].
      rewrite (Hout Hr). now apply lookup_insert_ne.
Qed.

Lemma build_masks_lookup (n : Z) (scales : list Z) (d : gmap Z (list (matrix F)))
  (l : Z) (stack : list (matrix F)) :
  build_masks warp_rotation n scales = Ok d ->
  d !! l = Some stack ->
  l ∈ scales /\ line_detector_stack warp_rotation n l = Ok stack.
Proof.
  intros Hb Hl. destruct (build_masks_from _ _ _ _ Hb l) as [Hin Hout].
  destruct (decide (l ∈ scales)) as [Hs|Hs].
  - destruct (Hin Hs) as (st & Hst & Hd). split; [assumption|]. congruence.
  - rewrite (Hout Hs), lookup_empty in Hl. discriminate.
Qed.

Lemma MSLD_init_ok (w : Z) (scales : list Z) (n : Z) (self : MSLD F) :
  MSLD_init warp_rotation w scales n = Ok self ->
  0 <= w /\ W self = w /\ L self = scales /\ n_orientation self = n /\
  y_true self = None /\
  build_masks warp_rotation n scales = Ok (line_detectors_masks self).
Proof.
  unfold MSLD_init. destruct (w <? 0) eqn:Ew; [discriminate|].
  intros Hb. apply bind_ok in Hb as (masks & Hm & [= <-]). simpl.
  repeat split; try assumption; lia.
Qed.

(** Every configured scale has its stack, with enough slices for the
    loop over the orientations. *)
Lemma MSLD_init_scale (w : Z) (scales : list Z) (n : Z) (self : MSLD F) (l : Z) :
  MSLD_init warp_rotation w scales n = Ok self ->
  l ∈ scales ->
  exists stack,
    line_detectors_masks self !! l = Some stack /\
    line_detector_stack warp_rotation n l = Ok stack /\
    (Z.to_nat (n_orientation self) <= length stack)%nat.
Proof.
  intros Hinit Hl.
  destruct (MSLD_init_ok _ _ _ _ Hinit) as (_ & _ & _ & Hn & _ & Hb).
  destruct (build_masks_from _ _ _ _ Hb l) as [Hin _].
  destruct (Hin Hl) as (stack & Hst & Hd).
  exists stack. repeat split; try assumption.
  rewrite Hn. now apply line_detector_stack_ok in Hst.
Qed.
End ConstructorFacts.

(** ** The detector on a well-formed instance *)

Lemma MSLD_init_well_formed {F : Type} `{Scalar F}
  (warp_rotation : matrix F -> Z * Z -> Z -> Z * Z -> matrix F)
  (w : Z) (scales : list Z) (n : Z) (self : MSLD F) :
  MSLD_init warp_rotation w scales n = Ok self -> well_formed self.
Proof.
  intros Hinit l Hl.
  destruct (MSLD_init_ok _ _ _ _ _ Hinit) as (_ & _ & HL & _).
  rewrite HL in Hl.
  destruct (MSLD_init_scale _ _ _ _ _ l Hinit Hl) as (stack & Hd & _ & Hlen).
  eauto.
Qed.

Section DetectorFacts.
Context {F : Type} `{ScalarSqrt F}.

Lemma slice_ok (stack : list (matrix F)) (k : Z) :
  (Z.to_nat k < length stack)%nat -> exists s, slice stack k = Ok s.
Proof.
  intros Hk. unfold slice.
  destruct (lookup_lt_is_Some_2 stack (Z.to_nat k) Hk) as [s ->]. eauto.
Qed.

Lemma raw_response_ok (self : MSLD F) (image : matrix F) (l : Z) :
  well_formed self -> l ∈ L self ->
  exists R, raw_response self image l = Ok R /\ shape R = shape image.
Proof.
  intros Hwf Hl. destruct (Hwf l Hl) as (stack & Hd & Hlen).
  unfold raw_response, dict_get. rewrite Hd. simpl.
  destruct (for_each_invariant (fun mm : matrix F => shape mm = shape image)
              (fun matrice_max n =>
                 do kernel <- slice stack n;
                 Ok (mat_zip np_maximum (convolve image kernel) matrice_max))
              (py_range 0 (n_orientation self) 1)) with (s := np_zeros_like (F:=F) image)
    as (mm & -> & Hmm).
  - intros s k Hk Hs. apply elem_of_py_range_up in Hk.
    destruct (slice_ok stack k) as (kernel & ->); [lia|]. simpl.
    eexists. split; [reflexivity|].
    rewrite shape_mat_zip; rewrite shape_convolve; congruence.
  - apply shape_np_zeros_like.
  - simpl. eexists. split; [reflexivity|].
    rewrite shape_mat_zip; [assumption|]. now rewrite shape_convolve.
Qed.

Lemma shape_standardize (R : matrix F) : shape (standardize R) = shape R.
Proof. apply shape_mat_map. Qed.

Lemma basic_line_detector_ok (self : MSLD F) (image : matrix F) (l : Z) :
  well_formed self -> l ∈ L self ->
  exists R, basic_line_detector self image l = Ok R /\ shape R = shape image.
Proof.
  intros Hwf Hl. destruct (raw_response_ok self image l Hwf Hl) as (R & HR & Hs).
  unfold basic_line_detector. rewrite HR. simpl.
  eexists. split; [reflexivity|]. now rewrite shape_standardize.
Qed.

(** The responses of a list of scales, in the order of the list. *)
Lemma responses_exist (self : MSLD F) (image : matrix F) (scales : list Z) :
  well_formed self -> (forall l, l ∈ scales -> l ∈ L self) ->
  exists responses,
    Forall2 (fun l r => basic_line_detector self image l = Ok r) scales responses /\
    Forall (fun r => shape r = shape image) responses.
Proof.
  intros Hwf. induction scales as [|l scales IH]; intros Hsub.
  - exists []. split; constructor.
  - destruct (basic_line_detector_ok self image l Hwf) as (r & Hr & Hs).
    { apply Hsub. left. }
    destruct IH as (rs & Hrs & Hshapes).
    { intros l' Hl'. apply Hsub. now right. }
    exists (r :: rs). split; constructor; assumption.
Qed.

(** The accumulation loop of [multi_scale_line_detector] adds the
    responses one after the other to the accumulator. *)
Lemma accumulation_loop (self : MSLD F) (image : matrix F) (scales : list Z)
  (responses : list (matrix F)) :
  Forall2 (fun l r => basic_line_detector self image l = Ok r) scales responses ->
  forall acc,
    for_each (fun Rcombined l =>
                do reponse <- basic_line_detector self image l;
                Ok (mat_zip s_add Rcombined reponse)) scales acc
    = Ok (fold_left (mat_zip s_add) responses acc).
Proof.
  induction 1 as [|l r scales responses Hr _ IH]; intros acc; simpl.
  - reflexivity.
  - rewrite Hr. simpl. apply IH.
Qed.

Lemma shape_fold_add (responses : list (matrix F)) :
  forall acc : matrix F,
    Forall (fun r => shape r = shape acc) responses ->
    shape (fold_left (mat_zip s_add) responses acc) = shape acc.
Proof.
  induction responses as [|r rs IH]; intros acc Hs; simpl; [reflexivity|].
  inversion Hs as [|? ? Hr Hrs]; subst.
  assert (Hacc : shape (mat_zip s_add acc r) = shape acc)
    by (apply shape_mat_zip; congruence).
  rewrite IH; [assumption|].
  rewrite Hacc. assumption.
Qed.

(** Entry by entry, the accumulated array holds the running sum of
    the entries of the responses. *)
Lemma entry_fold_add (responses : list (matrix F)) (i j : nat) :
  forall acc : matrix F,
    Forall (fun r => shape r = shape acc) responses ->
    entry (fold_left (mat_zip s_add) responses acc) i j
    = (fun x => fold_left s_add ((fun r => get2 r i j) <$> responses) x) <$> entry acc i j.
Proof.
  induction responses as [|r rs IH]; intros acc Hs; simpl.
  - now destruct (entry acc i j).
  - inversion Hs as [|? ? Hr Hrs]; subst.
    assert (Hacc : shape (mat_zip s_add acc r) = shape acc)
      by (apply shape_mat_zip; congruence).
    rewrite IH by (rewrite Hacc; assumption).
    rewrite entry_mat_zip.
    destruct (entry acc i j) as [x|] eqn:Ex; [|reflexivity].
    destruct (entry_same_shape acc r i j) as [y Hy]; [congruence | eauto |].
    rewrite Hy. simpl. now rewrite (get2_entry r i j y Hy).
Qed.
End DetectorFacts.

(** ** The combination rule *)

Lemma shape_combination_rule {F : Type} `{Scalar F} (n : Z) (responses : list (matrix F))
  (image : matrix F) :
  shape (combination_rule n responses image) = shape image.
Proof. unfold combination_rule. apply shape_imap. intros i row. apply length_imap. Qed.

(** C1.  On an instance built by the constructor with at least one
    orientation, [multi_scale_line_detector image] returns, at every
    pixel, [1 / (n_orientation + 1)] times the sum of the responses of
    [basic_line_detector] at the scales of [L] plus the image: the
    per-scale responses are summed, the raw image is one more term, and
    the whole is divided by [n_orientation + 1]. *)
Theorem multi_scale_line_detector_combination
  {F : Type} `{ScalarSqrt F}
  (warp_rotation : matrix F -> Z * Z -> Z -> Z * Z -> matrix F)
  (w : Z) (scales : list Z) (n : Z) (self : MSLD F) (image : matrix F) :
  MSLD_init warp_rotation w scales n = Ok self ->
  1 <= n ->
  exists responses,
    Forall2 (fun l r => basic_line_detector self image l = Ok r) scales responses /\
    multi_scale_line_detector self image = Ok (combination_rule n responses image).
Proof.
  intros Hinit Hn.
  pose proof (MSLD_init_well_formed _ _ _ _ _ Hinit) as Hwf.
  destruct (MSLD_init_ok _ _ _ _ _ Hinit) as (_ & _ & HL & Hno & _).
  destruct (responses_exist self image scales Hwf) as (responses & Hrs & Hshapes).
  { intros l Hl. now rewrite HL. }
  exists responses. split; [assumption|].
  unfold multi_scale_line_detector. rewrite Hno, HL.
  destruct (n + 1 =? 0) eqn:E; [lia|].
  rewrite (accumulation_loop self image scales responses Hrs). simpl.
  assert (Hz : Forall (fun r => shape r = shape (np_zeros_like (F:=F) image)) responses).
  { rewrite shape_np_zeros_like. assumption. }
  f_equal. apply mat_eq.
  - rewrite shape_mat_map, shape_combination_rule, shape_mat_zip;
      rewrite shape_fold_add by assumption; now rewrite shape_np_zeros_like.
  - intros i j. unfold combination_rule.
    rewrite entry_mat_map, entry_mat_zip, entry_imap.
    rewrite entry_fold_add by assumption.
    rewrite entry_np_zeros_like.
    destruct (entry image i j) as [x|]; reflexivity.
Qed.

Lemma multi_scale_line_detector_combination_witness :
  exists self : MSLD float,
    MSLD_init warp_identity 3 [3] 1 = Ok self /\
    exists responses,
      Forall2 (fun l r =>
                 basic_line_detector self [[0.5; 1; 0.25]; [0; 0.75; 0.5]]%float l = Ok r)
              [3] responses /\
      multi_scale_line_detector self [[0.5; 1; 0.25]; [0; 0.75; 0.5]]%float
      = Ok (combination_rule 1 responses [[0.5; 1; 0.25]; [0; 0.75; 0.5]]%float).
Proof.
  eexists. split; [vm_compute; reflexivity|].
  apply (multi_scale_line_detector_combination warp_identity 3 [3] 1);
    [vm_compute; reflexivity | lia].
Defined.

(** ** The number of orientations actually built *)

(** When [n_orientation] divides 180 the angles are [k * 180 / n] for
    [k < n], and there are exactly [n] of them. *)
Lemma orientation_count_divisor (n : Z) :
  1 <= n <= 180 -> 180 mod n = 0 ->
  length (py_range 0 180 (180 / n)) = Z.to_nat n.
Proof.
  intros Hn Hdiv.
  assert (Hs : 1 <= 180 / n) by (apply Z.div_le_lower_bound; lia).
  rewrite length_py_range by lia. f_equal.
  pose proof (Z.div_mod 180 n ltac:(lia)) as Hd. rewrite Hdiv in Hd.
  symmetry. apply Z.div_unique with (r := 180 / n - 1); [lia|]. nia.
Qed.

(** The floating-point quotient of the source, truncated by [int], is
    the integer quotient used in [orientation_angles]. *)
Lemma int_of_float_quotient :
  forallb (fun n => match py_int (PrimFloat.div (float_of_Z 180) (float_of_Z n)) with
                    | Some q => q =? Z.quot 180 n
                    | None => false
                    end)
          (seqZ 1 400 ++ seqZ (-400) 400) = true.
Proof. vm_compute. reflexivity. Qed.

(** C3, evaluated on [n_orientation = 7].  The step of the range is
    [int(180 / 7) = 25], so the constructor stores eight slices, at the
    angles 0, 25, ..., 175, where the documented shape
    [(l, l, n_orientation)] has seven, at the multiples of [180 / 7]. *)
Theorem seven_orientations_eight_slices
  {F : Type} `{Scalar F}
  (warp_rotation : matrix F -> Z * Z -> Z -> Z * Z -> matrix F) :
  orientation_angles 7 = Ok [0; 25; 50; 75; 100; 125; 150; 175] /\
  exists self stack,
    MSLD_init warp_rotation 3 [3] 7 = Ok self /\
    n_orientation self = 7 /\
    line_detectors_masks self !! 3 = Some stack /\
    length stack = 8%nat.
Proof.
  split; [reflexivity|].
  eexists. eexists. split; [reflexivity|].
  split; [reflexivity|]. split; [apply lookup_insert_eq | reflexivity].
Qed.

(** ** The segmenter *)

(** C6, on the code.  [segment_vessels] returns the [...] placeholder
    for every image: it does not call the detector, compares nothing to
    the threshold and returns no boolean map.  The instance is left as
    it was. *)
Theorem segment_vessels_returns_placeholder
  {F : Type} `{ScalarSqrt F} (self : MSLD F) (image : matrix F) :
  segment_vessels self image = (self, PyEllipsis) /\
  forall a, snd (segment_vessels self image) <> PyBoolArray a.
Proof. split; [reflexivity | intros a; simpl; discriminate]. Qed.

(** ** The ROC accumulation *)

Lemma shape_eq_true {A B : Type} (a : matrix A) (b : matrix B) :
  shape a = shape b -> shape_eq a b = true.
Proof.
  unfold shape, shape_eq. revert b.
  induction a as [|ra a IH]; intros [|rb b] Hs; simpl in *; try discriminate; [reflexivity|].
  injection Hs as Hr Hs. specialize (IH b Hs).
  apply andb_prop in IH as [Hlen Hall].
  apply Nat.eqb_eq in Hlen. rewrite Hlen, Nat.eqb_refl. simpl.
  rewrite Hr, Nat.eqb_refl. exact Hall.
Qed.

Section RocFacts.
Context {F : Type} `{ScalarSqrt F}.
Variable roc_curve : list bool -> list F -> result (list F * list F * list F).

Lemma multi_scale_line_detector_ok (self : MSLD F) (image : matrix F) :
  well_formed self -> n_orientation self + 1 <> 0 ->
  exists R, multi_scale_line_detector self image = Ok R /\ shape R = shape image.
Proof.
  intros Hwf Hn.
  destruct (responses_exist self image (L self) Hwf) as (responses & Hrs & Hshapes);
    [trivial|].
  unfold multi_scale_line_detector.
  destruct (n_orientation self + 1 =? 0) eqn:E; [lia|].
  rewrite (accumulation_loop self image (L self) responses Hrs). simpl.
  eexists. split; [reflexivity|].
  rewrite shape_mat_map, shape_mat_zip; rewrite shape_fold_add;
    rewrite ?shape_np_zeros_like; trivial.
Qed.

(** What the loop of [roc] has accumulated when it ends: the ROI
    labels of every sample, and as many score vectors. *)
Lemma roc_collect_from (self : MSLD F) (dataset : list (sample F)) :
  forall acc0 acc,
    for_each (roc_step self) dataset acc0 = Ok acc ->
    fst acc = fst acc0 ++ ((fun d => roi_select (label d) (mask d)) <$> dataset) /\
    length (snd acc) = (length (snd acc0) + length dataset)%nat.
Proof.
  induction dataset as [|d dataset IH]; intros acc0 acc Hloop; simpl in Hloop.
  - injection Hloop as <-. simpl. rewrite app_nil_r. split; [reflexivity | lia].
  - apply bind_ok in Hloop as (acc1 & Hbody & Hrest).
    apply bind_ok in Hbody as (prediction & _ & Hbody).
    apply bind_ok in Hbody as (lab & Hlab & Hbody).
    apply bind_ok in Hbody as (pred & _ & [= <-]).
    unfold bool_index in Hlab.
    destruct (shape_eq (label d) (mask d)); [|discriminate].
    injection Hlab as <-.
    destruct (IH _ _ Hrest) as [Hl Hp]. simpl in *.
    rewrite Hl, Hp, <- app_assoc, length_app. simpl. split; [reflexivity | lia].
Qed.

(** On well-shaped samples the loop of [roc] raises nothing. *)
Lemma roc_collect_total (self : MSLD F) (dataset : list (sample F)) :
  well_formed self -> n_orientation self + 1 <> 0 ->
  Forall well_shaped dataset ->
  forall acc0, exists acc, for_each (roc_step self) dataset acc0 = Ok acc.
Proof.
  intros Hwf Hn Hds acc0.
  destruct (for_each_invariant (fun _ => True) (roc_step self) dataset) with (s := acc0)
    as (acc & Hacc & _); [|trivial|eauto].
  intros s d Hd _.
  rewrite Forall_forall in Hds. destruct (Hds d Hd) as [Hi Hl].
  destruct (multi_scale_line_detector_ok self (image d) Hwf Hn) as (R & HR & Hs).
  unfold roc_step, bool_index. rewrite HR. simpl.
  rewrite (shape_eq_true _ _ Hl). simpl.
  rewrite (shape_eq_true R (mask d)) by congruence. simpl. eauto.
Qed.

Lemma concat_roi_labels (dataset : list (sample F)) :
  concat ((fun d => roi_select (label d) (mask d)) <$> dataset) = roi_labels dataset.
Proof.
  unfold roi_labels. induction dataset as [|d ds IH]; [reflexivity|].
  rewrite fmap_cons. simpl. f_equal. exact IH.
Qed.

(** [roc] on the empty dataset: the concatenation of no array raises,
    before anything is stored. *)
Lemma roc_empty (self : MSLD F) : roc roc_curve self [] = (self, Raise ValueError).
Proof. reflexivity. Qed.

(** [roc] on a non-empty dataset, when its loop ends: the labels of
    the region of interest are stored in [y_true], and the result is
    whatever [roc_curve] gives on them and on the scores. *)
Lemma roc_nonempty (self : MSLD F) (dataset : list (sample F))
  (acc : list (list bool) * list (list F)) :
  dataset <> [] ->
  roc_collect self dataset = Ok acc ->
  roc roc_curve self dataset
  = (set_y_true self (roi_labels dataset),
     roc_curve (roi_labels dataset) (concat (snd acc))).
Proof.
  intros Hne Hacc. unfold roc. rewrite Hacc. simpl.
  destruct (roc_collect_from self dataset _ _ Hacc) as [Hl Hp]. simpl in Hl, Hp.
  destruct acc as [yt yp]. simpl in *. subst yt.
  rewrite <- concat_roi_labels.
  destruct dataset as [|d ds]; [congruence|].
  destruct yp as [|p yp]; [simpl in Hp; lia|].
  reflexivity.
Qed.
End RocFacts.

(** ** The first maximum *)

Section Argmax.
Context {F : Type} `{ScalarOrder F}.

Lemma s_leb_refl (x : F) : s_isnan x = false -> s_leb x x = true.
Proof. unfold s_isnan. now destruct (s_leb x x). Qed.

Lemma s_leb_false (x y : F) :
  s_isnan x = false -> s_isnan y = false -> s_leb x y = false -> s_leb y x = true.
Proof. intros Hx Hy Hxy. destruct (s_leb_total x y Hx Hy); congruence. Qed.

Lemma argmax_scan_spec (rest : list F) :
  forall (i : nat) (best : F) (best_i : nat),
    s_isnan best = false ->
    Forall (fun x => s_isnan x = false) rest ->
    (argmax_scan rest i best best_i = best_i /\
     Forall (fun x => s_leb x best = true) rest)
    \/
    (exists k x,
        rest !! k = Some x /\
        argmax_scan rest i best best_i = (i + k)%nat /\
        s_leb x best = false /\
        Forall (fun y => s_leb y x = true) rest /\
        forall k' y, (k' < k)%nat -> rest !! k' = Some y -> s_leb x y = false).
Proof.
  induction rest as [|x rest IH]; intros i best best_i Hbest Hrest; simpl.
  - left. split; [reflexivity | constructor].
  - inversion Hrest as [|? ? Hx Hrest']; subst. rewrite Hbest.
    destruct (s_leb x best) eqn:Hxb.
    + destruct (IH (S i) best best_i Hbest Hrest')
        as [[Hr Hall] | (k & x' & Hk & Hr & Hlt & Hall & Hfirst)].
      * left. split; [assumption | now constructor].
      * right. exists (S k), x'.
        assert (Hx' : s_isnan x' = false).
        { rewrite Forall_lookup in Hrest'. eapply Hrest'; eassumption. }
        split; [assumption|]. split; [rewrite Hr; lia|].
        split; [assumption|]. split.
        -- constructor; [|assumption].
           apply s_leb_trans with best; [assumption|]. now apply s_leb_false.
        -- intros [|k'] y Hk' Hy; simpl in Hy.
           ++ injection Hy as <-.
              destruct (s_leb x' x) eqn:E; [|reflexivity].
              rewrite (s_leb_trans x' x best E Hxb) in Hlt. discriminate.
           ++ apply (Hfirst k'); [lia | assumption].
    + destruct (IH (S i) x i Hx Hrest')
        as [[Hr Hall] | (k & x' & Hk & Hr & Hlt & Hall & Hfirst)].
      * right. exists 0%nat, x.
        split; [reflexivity|]. split; [rewrite Hr; lia|].
        split; [assumption|]. split.
        -- constructor; [now apply s_leb_refl | assumption].
        -- intros k' y Hk'. lia.
      * right. exists (S k), x'.
        assert (Hx' : s_isnan x' = false).
        { rewrite Forall_lookup in Hrest'. eapply Hrest'; eassumption. }
        assert (Hxx' : s_leb x x' = true) by now apply s_leb_false.
        split; [assumption|]. split; [rewrite Hr; lia|]. split.
        -- destruct (s_leb x' best) eqn:E; [|reflexivity].
           rewrite (s_leb_trans x x' best Hxx' E) in Hxb. discriminate.
        -- split; [now constructor|].
           intros [|k'] y Hk' Hy; simpl in Hy.
           ++ now injection Hy as <-.
           ++ apply (Hfirst k'); [lia | assumption].
Qed.

(** [np.argmax] on a non-empty vector without NaN returns the first
    index that attains the maximum. *)
Lemma np_argmax_first_maximum (v : list F) :
  v <> [] ->
  Forall (fun x => s_isnan x = false) v ->
  exists i a, np_argmax v = Ok i /\ first_maximum v i a.
Proof.
  intros Hne Hv. destruct v as [|x0 rest]; [congruence|].
  inversion Hv as [|? ? Hx0 Hrest]; subst. simpl.
  destruct (argmax_scan_spec rest 1 x0 0 Hx0 Hrest)
    as [[Hr Hall] | (k & x' & Hk & Hr & Hlt & Hall & Hfirst)].
  - exists 0%nat, x0. rewrite Hr. split; [reflexivity|].
    split; [reflexivity|]. split.
    + constructor; [now apply s_leb_refl | assumption].
    + intros k y Hk. lia.
  - exists (S k), x'. rewrite Hr. split; [reflexivity|].
    assert (Hx' : s_isnan x' = false).
    { rewrite Forall_lookup in Hrest. eapply Hrest; eassumption. }
    split; [assumption|]. split.
    + constructor; [now apply s_leb_false | assumption].
    + intros [|k'] y Hk' Hy; simpl in Hy.
      * now injection Hy as <-.
      * apply (Hfirst k'); [lia | assumption].
Qed.
End Argmax.

(** ** The comparison of the two scalar instances *)

#[export] Instance Q_ScalarOrder : ScalarOrder Q.
Proof.
  split; simpl.
  - intros x y z Hxy Hyz. apply Qle_bool_iff in Hxy, Hyz. apply Qle_bool_iff.
    now apply Qle_trans with y.
  - intros x y _ _. destruct (Qlt_le_dec x y) as [Hlt|Hle].
    + left. apply Qle_bool_iff. now apply Qlt_le_weak.
    + right. now apply Qle_bool_iff.
Qed.

Ltac compare_cases :=
  repeat match goal with
         | H : context [Z.compare ?a ?b] |- _ => destruct (Z.compare_spec a b)
         | |- context [Z.compare ?a ?b] => destruct (Z.compare_spec a b)
         | H : context [Pos.compare ?a ?b] |- _ => destruct (Pos.compare_spec a b)
         | |- context [Pos.compare ?a ?b] => destruct (Pos.compare_spec a b)
         end.

Lemma SFleb_trans (a b c : spec_float) :
  SFleb a b = true -> SFleb b c = true -> SFleb a c = true.
Proof.
  unfold SFleb, SFcompare.
  change (Pos.compare_cont Eq) with Pos.compare.
  destruct a as [[|]|[|]| |[|] ma ea], b as [[|]|[|]| |[|] mb eb], c as [[|]|[|]| |[|] mc ec];
    simpl; try congruence;
    compare_cases; simpl; try congruence; subst; try lia.
Qed.

Lemma SFleb_total (a b : spec_float) :
  SFleb a a = true -> SFleb b b = true -> SFleb a b = true \/ SFleb b a = true.
Proof.
  unfold SFleb, SFcompare.
  change (Pos.compare_cont Eq) with Pos.compare.
  destruct a as [[|]|[|]| |[|] ma ea], b as [[|]|[|]| |[|] mb eb];
    simpl; try congruence; intros _ _; try (now left); try (now right);
    compare_cases; simpl; subst; try (now left); try (now right); lia.
Qed.

#[export] Instance float_ScalarOrder : ScalarOrder float.
Proof.
  split; unfold s_isnan; simpl.
  - intros x y z. rewrite !FloatAxioms.leb_spec. apply SFleb_trans.
  - intros x y. rewrite !FloatAxioms.leb_spec. intros Hx Hy.
    apply SFleb_total; [now destruct (SFleb (Prim2SF x) (Prim2SF x))
                       | now destruct (SFleb (Prim2SF y) (Prim2SF y))].
Qed.

(** ** The threshold learner *)

Lemma py_sum_filter (v : list bool) :
  py_sum v = Z.of_nat (length (List.filter (Bool.eqb true) v)).
Proof.
  unfold py_sum. f_equal.
  induction v as [|[|] v IH]; simpl; [reflexivity | now rewrite IH | assumption].
Qed.

Lemma py_len_filter (v : list bool) :
  py_len v = Z.of_nat (length (List.filter (Bool.eqb true) v))
             + Z.of_nat (length (List.filter (Bool.eqb false) v)).
Proof.
  unfold py_len. induction v as [|[|] v IH]; simpl length; lia.
Qed.

Section LearnerFacts.
Context {F : Type} `{ScalarSqrt F}.
Variable roc_curve : list bool -> list F -> result (list F * list F * list F).

(** The list [accuracies] of the source is the analytic accuracy with
    [P] the number of positive and [N] the number of negative pixels
    of the region of interest. *)
Lemma accuracy_at_roi (dataset : list (sample F)) (tpr_i fpr_i : F) :
  accuracy_at (roi_labels dataset) tpr_i fpr_i
  = roc_accuracy (roi_count true dataset) (roi_count false dataset) tpr_i fpr_i.
Proof.
  unfold accuracy_at, roc_accuracy, roi_count.
  pose proof (py_sum_filter (roi_labels dataset)) as Hs.
  pose proof (py_len_filter (roi_labels dataset)) as Hl.
  rewrite Hs.
  replace (py_len (roi_labels dataset)
           - Z.of_nat (length (List.filter (Bool.eqb true) (roi_labels dataset))))
    with (Z.of_nat (length (List.filter (Bool.eqb false) (roi_labels dataset)))) by lia.
  now rewrite Hl.
Qed.

Lemma roc_ok_state (self self1 : MSLD F) (dataset : list (sample F))
  (curve : list F * list F * list F) :
  roc roc_curve self dataset = (self1, Ok curve) ->
  self1 = set_y_true self (roi_labels dataset).
Proof.
  intros Hroc.
  destruct dataset as [|d ds]; [rewrite roc_empty in Hroc; congruence|].
  destruct (roc_collect self (d :: ds)) as [acc|e] eqn:Hacc.
  - rewrite (roc_nonempty roc_curve self (d :: ds) acc) in Hroc by (congruence || assumption).
    congruence.
  - unfold roc in Hroc. rewrite Hacc in Hroc. simpl in Hroc. congruence.
Qed.
End LearnerFacts.

(** C2.  When [roc] returns a curve with as many rates as thresholds
    and no accuracy is a NaN, [learn_threshold] computes for each ROC
    point [accuracy_i = (tpr_i * P + (1 - fpr_i) * N) / (P + N)], with
    [P] and [N] the numbers of positive and negative pixels of the
    region of interest over the dataset, takes the first index [i] that
    attains the maximum accuracy, stores [thresholds[i]] as the
    threshold of the instance and returns it with [accuracy_i]. *)
Theorem learn_threshold_first_best_accuracy
  {F : Type} `{ScalarSqrt F} `{!ScalarOrder F}
  (roc_curve : list bool -> list F -> result (list F * list F * list F))
  (self self1 : MSLD F) (dataset : list (sample F)) (fpr tpr thresholds : list F) :
  roc roc_curve self dataset = (self1, Ok (fpr, tpr, thresholds)) ->
  tpr <> [] ->
  length fpr = length tpr ->
  length thresholds = length tpr ->
  Forall (fun a => s_isnan a = false)
         (zip_with (roc_accuracy (roi_count true dataset) (roi_count false dataset)) tpr fpr) ->
  exists i t a,
    learn_threshold roc_curve self dataset = (set_threshold self1 t, Ok (t, a)) /\
    threshold (fst (learn_threshold roc_curve self dataset)) = t /\
    thresholds !! i = Some t /\
    first_maximum
      (zip_with (roc_accuracy (roi_count true dataset) (roi_count false dataset)) tpr fpr)
      i a.
Proof.
  intros Hroc Htpr Hfpr Hthr Hnan.
  pose proof (roc_ok_state roc_curve _ _ _ _ Hroc) as Hself1.
  set (accuracies := zip_with (roc_accuracy (roi_count true dataset)
                                            (roi_count false dataset)) tpr fpr) in *.
  assert (Hacc : zip_with (accuracy_at (roi_labels dataset)) tpr fpr = accuracies).
  { unfold accuracies. clear. revert fpr.
    induction tpr as [|t tpr IH]; intros [|f fpr]; simpl; try reflexivity.
    now rewrite accuracy_at_roi, IH. }
  assert (Hlen : length accuracies = length tpr).
  { unfold accuracies. rewrite length_zip_with. lia. }
  destruct (np_argmax_first_maximum accuracies) as (i & a & Harg & Hmax).
  { intros E. rewrite E in Hlen. destruct tpr; [congruence | discriminate]. }
  { assumption. }
  assert (Hi : (i < length thresholds)%nat).
  { destruct Hmax as [Hia _]. apply lookup_lt_Some in Hia. lia. }
  destruct (lookup_lt_is_Some_2 thresholds i Hi) as [t Ht].
  exists i, t, a.
  assert (Hlearn : learn_threshold roc_curve self dataset
                   = (set_threshold self1 t, Ok (t, a))).
  { unfold learn_threshold. rewrite Hroc.
    replace (y_true self1) with (Some (roi_labels dataset)) by now rewrite Hself1.
    rewrite Hacc, Harg. simpl. unfold list_index.
    rewrite Ht. destruct Hmax as [-> _]. reflexivity. }
  rewrite Hlearn. repeat split; try assumption; apply Hmax.
Qed.

Lemma learn_threshold_first_best_accuracy_witness :
  exists (self self1 : MSLD float) (fpr tpr thresholds : list float),
    MSLD_init warp_identity 3 [3] 1 = Ok self /\
    roc Sklearn.roc_curve self example_dataset = (self1, Ok (fpr, tpr, thresholds)) /\
    exists i t a,
      learn_threshold Sklearn.roc_curve self example_dataset
      = (set_threshold self1 t, Ok (t, a)) /\
      threshold (fst (learn_threshold Sklearn.roc_curve self example_dataset)) = t /\
      thresholds !! i = Some t /\
      first_maximum
        (zip_with (roc_accuracy (roi_count true example_dataset)
                                (roi_count false example_dataset)) tpr fpr)
        i a.
Proof.
  do 5 eexists. split; [vm_compute; reflexivity|].
  split; [vm_compute; reflexivity|].
  apply (learn_threshold_first_best_accuracy Sklearn.roc_curve).
  - vm_compute. reflexivity.
  - discriminate.
  - reflexivity.
  - reflexivity.
  - vm_compute. repeat constructor.
Defined.

(** ** Division by zero in binary64 *)

(** A float that compares equal to zero is one of the two zeros. *)
Lemma float_zero_cases (x : float) :
  PrimFloat.eqb x 0 = true -> x = 0%float \/ x = (-0)%float.
Proof.
  rewrite FloatAxioms.eqb_spec. unfold SFeqb, SFcompare.
  change (Prim2SF 0) with (S754_zero false).
  destruct (Prim2SF x) as [s| | |] eqn:E; try discriminate.
  - intros _. rewrite <- (SF2Prim_Prim2SF x), E. destruct s; [right | left]; reflexivity.
  - destruct s; discriminate.
  - destruct s; discriminate.
Qed.

Lemma zero_over_zero_is_nan (a b : float) :
  PrimFloat.eqb a 0 = true -> PrimFloat.eqb b 0 = true ->
  PrimFloat.is_nan (PrimFloat.div a b) = true.
Proof.
  intros Ha Hb.
  destruct (float_zero_cases a Ha) as [-> | ->], (float_zero_cases b Hb) as [-> | ->];
    reflexivity.
Qed.

(** ** The zero-variance case of the basic line detector *)

(** C4, on the code: on the constant map [constant_image] the raw
    response is constant, its standard deviation is zero, and
    [basic_line_detector] returns a map of NaN, not a map of zeros. *)
Lemma basic_line_detector_constant_map_nan :
  exists self : MSLD float,
    MSLD_init warp_identity 3 [3] 1 = Ok self /\
    basic_line_detector self constant_image 3
    = Ok [[nan; nan; nan]; [nan; nan; nan]]%float /\
    PrimFloat.eqb nan 0 = false.
Proof. eexists. split; [vm_compute; reflexivity|]. split; vm_compute; reflexivity. Qed.

(** C4, as the code has it.  [basic_line_detector] has no guard on the
    standard deviation: it returns [(R - mean(R)) / std(R)] entry by
    entry.  When the raw response [R] has a standard deviation equal to
    zero and every entry equal to its mean, as for a constant input,
    every entry of the result is the NaN of [0 / 0]; the map has the
    shape of [R], nothing is raised and no zero map is substituted. *)
Theorem basic_line_detector_zero_variance
  (self : MSLD float) (image : matrix float) (l : Z) (R : matrix float) :
  raw_response self image l = Ok R ->
  PrimFloat.eqb (np_std R) 0 = true ->
  all_entries (fun x => PrimFloat.eqb (PrimFloat.sub x (np_mean R)) 0 = true) R ->
  exists R',
    basic_line_detector self image l = Ok R' /\
    shape R' = shape R /\
    all_entries (fun y => PrimFloat.is_nan y = true) R'.
Proof.
  intros HR Hstd Hdev.
  exists (standardize R). split; [|split].
  - unfold basic_line_detector. now rewrite HR.
  - apply shape_standardize.
  - unfold standardize, mat_map, all_entries in *.
    rewrite Forall_fmap. eapply Forall_impl; [exact Hdev|].
    intros row Hrow. simpl. rewrite Forall_fmap.
    eapply Forall_impl; [exact Hrow|].
    intros x Hx. simpl. now apply zero_over_zero_is_nan.
Qed.

Lemma basic_line_detector_zero_variance_witness :
  exists (self : MSLD float) (R : matrix float),
    MSLD_init warp_identity 3 [3] 1 = Ok self /\
    raw_response self constant_image 3 = Ok R /\
    exists R',
      basic_line_detector self constant_image 3 = Ok R' /\
      shape R' = shape R /\
      all_entries (fun y => PrimFloat.is_nan y = true) R'.
Proof.
  do 2 eexists. split; [vm_compute; reflexivity|].
  split; [vm_compute; reflexivity|].
  apply basic_line_detector_zero_variance.
  - vm_compute. reflexivity.
  - vm_compute. reflexivity.
  - vm_compute. repeat constructor.
Defined.

(** ** The Dice index *)

Lemma py_sum_all_false (v : list bool) :
  Forall (fun b => b = false) v -> py_sum v = 0.
Proof.
  unfold py_sum. induction 1 as [|b v -> _ IH]; simpl; [reflexivity|].
  simpl in IH. exact IH.
Qed.

Lemma count_true_all_false (a : matrix bool) :
  all_entries (fun b => b = false) a -> count_true a = 0.
Proof.
  intros Ha. apply py_sum_all_false. unfold flatten.
  induction Ha as [|row a Hrow _ IH]; simpl; [constructor|].
  apply Forall_app. split; assumption.
Qed.

Lemma mat_zip_andb_all_false (a b : matrix bool) :
  all_entries (fun x => x = false) a ->
  all_entries (fun x => x = false) (mat_zip andb a b).
Proof.
  unfold all_entries, mat_zip. intros Ha. revert b.
  induction Ha as [|ra a Hra _ IH]; intros [|rb b]; simpl; try constructor; [|apply IH].
  clear IH. revert rb. induction Hra as [|x ra -> _ IH]; intros [|y rb]; simpl;
    constructor; [reflexivity | apply IH].
Qed.

(** C9, on the code: on two all-false arrays [dice] divides the integer
    0 by the integer 0 in floating point and returns NaN, which is not
    1.0. *)
Lemma dice_all_false_nan :
  dice (F:=float) [[false; false]] [[false; false]] = Ok nan /\
  PrimFloat.eqb nan 1 = false.
Proof. split; vm_compute; reflexivity. Qed.

(** C9, as the code has it.  For two boolean arrays of one shape that
    are both all-false, [dice] raises nothing and returns the NaN of
    [0 / 0]: the formula is applied without a test of the denominator. *)
Theorem dice_all_false (targets predictions : matrix bool) :
  shape_eq targets predictions = true ->
  all_entries (fun b => b = false) targets ->
  all_entries (fun b => b = false) predictions ->
  exists x : float, dice targets predictions = Ok x /\ PrimFloat.is_nan x = true.
Proof.
  intros Hs Ht Hp. unfold dice. rewrite Hs.
  rewrite (count_true_all_false _ (mat_zip_andb_all_false targets predictions Ht)).
  rewrite (count_true_all_false _ Ht), (count_true_all_false _ Hp).
  eexists. split; reflexivity.
Qed.

Lemma dice_all_false_witness :
  exists x : float,
    dice [[false; false]; [false; false]] [[false; false]; [false; false]] = Ok x /\
    PrimFloat.is_nan x = true.
Proof.
  apply dice_all_false; [reflexivity | repeat constructor | repeat constructor].
Defined.

(** ** The state after [roc] and [learn_threshold] *)

Section StateFacts.
Context {F : Type} `{ScalarSqrt F}.
Variable roc_curve : list bool -> list F -> result (list F * list F * list F).

Lemma roc_state (self : MSLD F) (dataset : list (sample F)) :
  fst (roc roc_curve self dataset) = self \/
  fst (roc roc_curve self dataset) = set_y_true self (roi_labels dataset).
Proof.
  destruct dataset as [|d ds]; [left; reflexivity|].
  destruct (roc_collect self (d :: ds)) as [acc|e] eqn:Hacc.
  - right. now rewrite (roc_nonempty roc_curve self (d :: ds) acc).
  - left. unfold roc. now rewrite Hacc.
Qed.

Lemma learn_threshold_state (self : MSLD F) (dataset : list (sample F)) :
  fst (learn_threshold roc_curve self dataset) = fst (roc roc_curve self dataset) \/
  exists t, fst (learn_threshold roc_curve self dataset)
            = set_threshold (fst (roc roc_curve self dataset)) t.
Proof.
  unfold learn_threshold.
  destruct (roc roc_curve self dataset) as [self1 [[[fpr tpr] thresholds]|e]]; simpl;
    [|now left].
  destruct (y_true self1) as [yt|]; [|now left].
  destruct (np_argmax _) as [i|e]; simpl; [|now left].
  destruct (list_index thresholds i) as [t|e]; simpl; [|now left].
  destruct (list_index _ i) as [a|e]; simpl; [|now left].
  right. now exists t.
Qed.

Lemma learn_threshold_empty (self : MSLD F) :
  learn_threshold roc_curve self [] = (self, Raise ValueError).
Proof. reflexivity. Qed.
End StateFacts.

(** C8, on the code: [roc] creates the attribute [y_true] on an
    instance that did not have it. *)
Lemma roc_assigns_y_true :
  exists self : MSLD float,
    MSLD_init warp_identity 3 [3] 1 = Ok self /\
    y_true self = None /\
    y_true (fst (roc Sklearn.roc_curve self example_dataset))
    = Some [true; false; false; false; true].
Proof. eexists. split; [vm_compute; reflexivity|]. split; vm_compute; reflexivity. Qed.

(** C8, as the code has it.  The core operations assign two attributes
    of the instance: [roc], and [learn_threshold] through it, assign
    [y_true] (the labels of the region of interest), and
    [learn_threshold] assigns [threshold].  [roc] leaves [W], [L],
    [n_orientation], [threshold], [avg_mask] and [line_detectors_masks]
    unchanged, [learn_threshold] leaves all of these but [threshold]
    unchanged, and [segment_vessels] changes nothing. *)
Theorem instance_state_frame
  {F : Type} `{ScalarSqrt F}
  (roc_curve : list bool -> list F -> result (list F * list F * list F))
  (self : MSLD F) (dataset : list (sample F)) (image : matrix F) :
  let after_roc := fst (roc roc_curve self dataset) in
  let after_learn := fst (learn_threshold roc_curve self dataset) in
  (W after_roc = W self /\ L after_roc = L self /\
   n_orientation after_roc = n_orientation self /\
   threshold after_roc = threshold self /\
   avg_mask after_roc = avg_mask self /\
   line_detectors_masks after_roc = line_detectors_masks self /\
   (y_true after_roc = y_true self \/ y_true after_roc = Some (roi_labels dataset)))
  /\
  (W after_learn = W self /\ L after_learn = L self /\
   n_orientation after_learn = n_orientation self /\
   avg_mask after_learn = avg_mask self /\
   line_detectors_masks after_learn = line_detectors_masks self /\
   y_true after_learn = y_true after_roc)
  /\
  fst (segment_vessels self image) = self.
Proof.
  intros after_roc after_learn.
  assert (Hroc : W after_roc = W self /\ L after_roc = L self /\
                 n_orientation after_roc = n_orientation self /\
                 threshold after_roc = threshold self /\
                 avg_mask after_roc = avg_mask self /\
                 line_detectors_masks after_roc = line_detectors_masks self /\
                 (y_true after_roc = y_true self \/
                  y_true after_roc = Some (roi_labels dataset))).
  { subst after_roc.
    destruct (roc_state roc_curve self dataset) as [-> | ->]; simpl; tauto. }
  split; [exact Hroc|]. split; [|reflexivity].
  destruct Hroc as (HW & HL & Hn & _ & Ha & Hm & _).
  subst after_learn.
  destruct (learn_threshold_state roc_curve self dataset) as [-> | [t ->]]; simpl;
    fold after_roc; tauto.
Qed.

(** ** Degenerate datasets *)

(** C7, on the code: on a dataset whose region of interest holds no
    positive pixel, [roc] returns a curve and [learn_threshold] returns
    a threshold (with a NaN accuracy); neither fails. *)
Lemma one_class_dataset_accepted :
  exists self : MSLD float,
    MSLD_init warp_identity 3 [3] 1 = Ok self /\
    roi_count true one_class_dataset = 0 /\
    is_ok (snd (roc Sklearn.roc_curve self one_class_dataset)) = true /\
    is_ok (snd (learn_threshold Sklearn.roc_curve self one_class_dataset)) = true.
Proof.
  eexists. split; [vm_compute; reflexivity|].
  repeat split; vm_compute; reflexivity.
Qed.

(** C7, as the code has it.  On the empty dataset [roc] and
    [learn_threshold] fail, with the [ValueError] of the concatenation
    of an empty list, and leave the instance as it was.  On a non-empty
    dataset of well-shaped samples the classes are not inspected: [roc]
    returns or raises exactly what [roc_curve] does on the labels of
    the region of interest and one score per label source, whether or
    not both classes are present. *)
Theorem roc_on_degenerate_datasets
  {F : Type} `{ScalarSqrt F}
  (roc_curve : list bool -> list F -> result (list F * list F * list F))
  (self : MSLD F) (dataset : list (sample F)) :
  well_formed self ->
  n_orientation self + 1 <> 0 ->
  Forall well_shaped dataset ->
  match dataset with
  | [] =>
      roc roc_curve self [] = (self, Raise ValueError) /\
      learn_threshold roc_curve self [] = (self, Raise ValueError)
  | _ :: _ =>
      exists scores,
        roc roc_curve self dataset
        = (set_y_true self (roi_labels dataset), roc_curve (roi_labels dataset) scores)
  end.
Proof.
  intros Hwf Hn Hds. destruct dataset as [|d ds].
  - split; reflexivity.
  - destruct (roc_collect_total self (d :: ds) Hwf Hn Hds ([], [])) as (acc & Hacc).
    exists (concat (snd acc)). now apply roc_nonempty.
Qed.

Lemma roc_on_degenerate_datasets_witness :
  exists self : MSLD float,
    MSLD_init warp_identity 3 [3] 1 = Ok self /\
    exists scores,
      roc Sklearn.roc_curve self one_class_dataset
      = (set_y_true self (roi_labels one_class_dataset),
         Sklearn.roc_curve (roi_labels one_class_dataset) scores).
Proof.
  eexists. split; [vm_compute; reflexivity|].
  apply (roc_on_degenerate_datasets Sklearn.roc_curve _ one_class_dataset).
  - eapply (MSLD_init_well_formed warp_identity 3 [3] 1). vm_compute. reflexivity.
  - vm_compute. discriminate.
  - repeat constructor.
Defined.

(** ** Sums in exact arithmetic *)

Section ExactSums.
Open Scope Q_scope.

Lemma fold_left_Qplus_acc (v : list Q) (a : Q) :
  fold_left Qplus v a == a + fold_left Qplus v 0.
Proof.
  revert a. induction v as [|x v IH]; intros a; simpl.
  - ring.
  - rewrite (IH (a + x)), (IH (0 + x)). ring.
Qed.

Lemma vec_sum_cons (x : Q) (v : list Q) : vec_sum (x :: v) == x + vec_sum v.
Proof.
  unfold vec_sum. simpl. rewrite fold_left_Qplus_acc.
  change (inject_Z 0) with 0. ring.
Qed.

Lemma vec_sum_app (u v : list Q) : vec_sum (u ++ v) == vec_sum u + vec_sum v.
Proof.
  induction u as [|x u IH]; simpl.
  - unfold vec_sum at 2. simpl. change (inject_Z 0) with 0. ring.
  - rewrite !vec_sum_cons, IH. ring.
Qed.

Lemma vec_sum_nonneg (v : list Q) : Forall (fun x => 0 <= x) v -> 0 <= vec_sum v.
Proof.
  induction 1 as [|x v Hx _ IH].
  - unfold vec_sum. simpl. apply Qle_refl.
  - rewrite vec_sum_cons. cbv beta in Hx. lra.
Qed.

Lemma vec_sum_ge (v : list Q) (x : Q) :
  Forall (fun x => 0 <= x) v -> x ∈ v -> x <= vec_sum v.
Proof.
  induction 1 as [|y v Hy Hv IH]; intros Hx.
  - inversion Hx.
  - rewrite vec_sum_cons. pose proof (vec_sum_nonneg v Hv). cbv beta in Hy.
    apply elem_of_cons in Hx as [-> | Hx]; [lra|].
    specialize (IH Hx). lra.
Qed.

Lemma vec_sum_scale (v : list Q) (s : Q) :
  vec_sum ((fun x => x / s) <$> v) == vec_sum v / s.
Proof.
  induction v as [|x v IH].
  - unfold vec_sum. simpl. change (inject_Z 0) with 0. unfold Qdiv. ring.
  - rewrite fmap_cons, !vec_sum_cons, IH. unfold Qdiv. ring.
Qed.
End ExactSums.

Lemma flatten_mat_map {A B : Type} (f : A -> B) (a : matrix A) :
  flatten (mat_map f a) = f <$> flatten a.
Proof.
  unfold flatten, mat_map. induction a as [|row a IH]; [reflexivity|].
  rewrite fmap_cons. simpl. now rewrite IH, fmap_app.
Qed.

Lemma entry_in_flatten {A : Type} (a : matrix A) (i j : nat) (x : A) :
  entry a i j = Some x -> x ∈ flatten a.
Proof.
  unfold entry, flatten. intros He.
  destruct (a !! i) as [row|] eqn:Hi; [|discriminate].
  apply list_elem_of_In, in_concat. exists row. split; apply list_elem_of_In.
  - eapply list_elem_of_lookup_2; eassumption.
  - eapply list_elem_of_lookup_2; eassumption.
Qed.

Lemma all_entries_flatten {A : Type} (P : A -> Prop) (a : matrix A) :
  all_entries P a -> Forall P (flatten a).
Proof.
  unfold all_entries, flatten. induction 1 as [|row a Hrow _ IH]; simpl; [constructor|].
  apply Forall_app. split; assumption.
Qed.

(** Every stored slice is one of the normalised kernels of its scale. *)
Lemma stored_slice {F : Type} `{Scalar F}
  (warp_rotation : matrix F -> Z * Z -> Z -> Z * Z -> matrix F)
  (w : Z) (scales : list Z) (n : Z) (self : MSLD F)
  (l : Z) (stack : list (matrix F)) (kernel : matrix F) :
  MSLD_init warp_rotation w scales n = Ok self ->
  line_detectors_masks self !! l = Some stack ->
  kernel ∈ stack ->
  1 <= l /\ exists angle, kernel = normalized_mask warp_rotation l angle.
Proof.
  intros Hinit Hl Hk.
  destruct (MSLD_init_ok _ _ _ _ _ Hinit) as (_ & _ & _ & _ & _ & Hb).
  destruct (build_masks_lookup _ _ _ _ _ _ Hb Hl) as [_ Hst].
  apply line_detector_stack_ok in Hst as (Hl1 & _ & -> & _).
  split; [assumption|].
  apply list_elem_of_fmap in Hk as (angle & -> & _). now exists angle.
Qed.

(** ** The kernels in exact arithmetic *)

Section MaskFacts.
Variable warp_rotation : matrix Q -> Z * Z -> Z -> Z * Z -> matrix Q.
Hypothesis warp_nonneg : resampling_nonnegative warp_rotation.
Hypothesis warp_center : rotation_fixes_center warp_rotation.

Lemma inverse_length_positive (l : Z) : 1 <= l -> (0 < 1 / inject_Z l)%Q.
Proof.
  intros Hl. unfold Qdiv. rewrite Qmult_1_l. apply Qinv_lt_0_compat.
  unfold Qlt. simpl. lia.
Qed.

(** The base kernel is nonnegative. *)
Lemma line_detector_nonneg (l : Z) :
  1 <= l -> all_entries (fun x => (0 <= x)%Q) (line_detector (F:=Q) l).
Proof.
  intros Hl. unfold all_entries, line_detector.
  apply Forall_lookup. intros i row Hi.
  rewrite list_lookup_imap in Hi.
  unfold np_zeros in Hi.
  destruct (replicate (Z.to_nat l) (replicate (Z.to_nat l) s_zero) !! i)
    as [zeros|] eqn:Hz; [|discriminate].
  apply lookup_replicate in Hz as [-> _]. simpl in Hi. injection Hi as <-.
  destruct (Z.of_nat i =? l / 2).
  - rewrite Forall_fmap. apply Forall_forall. intros x _. simpl.
    apply Qlt_le_weak. now apply inverse_length_positive.
  - apply Forall_forall. intros x Hx. apply elem_of_replicate in Hx as [-> _].
    apply Qle_refl.
Qed.

(** Its centre holds [1 / l]. *)
Lemma line_detector_center (l : Z) :
  1 <= l ->
  entry (line_detector (F:=Q) l) (Z.to_nat (l / 2)) (Z.to_nat (l / 2))
  = Some (1 / inject_Z l)%Q.
Proof.
  intros Hl.
  assert (Hc : 0 <= l / 2 < l).
  { split; [apply Z.div_pos; lia | apply Z.div_lt_upper_bound; lia]. }
  unfold entry, line_detector, np_zeros.
  rewrite list_lookup_imap, lookup_replicate_2 by lia. simpl.
  rewrite Z2Nat.id, Z.eqb_refl by lia.
  rewrite list_lookup_fmap, lookup_replicate_2 by lia. reflexivity.
Qed.

(** The resampled kernel is nonnegative and its sum is positive. *)
Lemma rotated_mask_nonneg (l angle : Z) :
  1 <= l -> all_entries (fun x => (0 <= x)%Q) (rotated_mask warp_rotation l angle).
Proof. intros Hl. apply warp_nonneg. now apply line_detector_nonneg. Qed.

Lemma rotated_mask_sum_positive (l angle : Z) :
  1 <= l -> (0 < np_sum (rotated_mask warp_rotation l angle))%Q.
Proof.
  intros Hl.
  assert (Hc : 0 <= l / 2 < l).
  { split; [apply Z.div_pos; lia | apply Z.div_lt_upper_bound; lia]. }
  destruct (warp_center (line_detector l) (l / 2) (l / 2) angle l l _ Hc Hc
              (line_detector_center l Hl)) as (y & Hy & Hyx).
  fold (rotated_mask warp_rotation l angle) in Hy.
  pose proof (inverse_length_positive l Hl) as Hpos.
  assert (Hle : (y <= np_sum (rotated_mask warp_rotation l angle))%Q).
  { apply vec_sum_ge.
    - apply all_entries_flatten. now apply rotated_mask_nonneg.
    - eapply entry_in_flatten. eassumption. }
  rewrite Hyx in Hle. lra.
Qed.

(** Every normalised kernel sums to one and is nonnegative. *)
Lemma normalized_mask_sum (l angle : Z) :
  1 <= l -> (np_sum (normalized_mask warp_rotation l angle) == 1)%Q.
Proof.
  intros Hl. pose proof (rotated_mask_sum_positive l angle Hl) as Hpos.
  unfold normalized_mask, np_sum in *. rewrite flatten_mat_map. simpl.
  rewrite vec_sum_scale. field. lra.
Qed.

End MaskFacts.

Lemma warp_identity_nonnegative : resampling_nonnegative warp_identity.
Proof. intros src center angle dsize Hsrc. exact Hsrc. Qed.

Lemma warp_identity_fixes_center : rotation_fixes_center warp_identity.
Proof.
  intros src cx cy angle width height x _ _ Hx. exists x.
  split; [exact Hx | reflexivity].
Qed.





(** ** The sign of a binary64 quotient *)

Lemma shr_1_nonneg (mrs : shr_record) : 0 <= shr_m mrs -> 0 <= shr_m (shr_1 mrs).
Proof. destruct mrs as [m r s]. simpl. destruct m as [|[p|p|]|[p|p|]]; simpl; lia. Qed.

Lemma iter_pos_invariant {A : Type} (f : A -> A) (P : A -> Prop) :
  (forall x, P x -> P (f x)) -> forall n x, P x -> P (SpecFloat.iter_pos f n x).
Proof.
  intros Hf. induction n as [n IH|n IH|]; intros x Hx; simpl; auto.
Qed.

Lemma shr_fexp_nonneg (prec emax m e : Z) (l : location) :
  0 <= m -> 0 <= shr_m (fst (shr_fexp prec emax m e l)).
Proof.
  intros Hm. unfold shr_fexp, shr.
  assert (H0 : 0 <= shr_m (shr_record_of_loc m l)) by (destruct l as [|[| |]]; exact Hm).
  destruct (fexp prec emax (Zdigits2 m + e) - e) as [|p|p]; simpl; try exact H0.
  apply (iter_pos_invariant shr_1 (fun r => 0 <= shr_m r)); [apply shr_1_nonneg | exact H0].
Qed.

Lemma round_nearest_even_nonneg (m : Z) (l : location) :
  0 <= m -> 0 <= round_nearest_even m l.
Proof.
  intros Hm. unfold round_nearest_even.
  destruct l as [|[| |]]; try lia. destruct (Z.even m); lia.
Qed.

(** Rounding a nonnegative mantissa gives a zero, a finite number or an
    infinity of the requested sign, never a NaN. *)
Lemma binary_round_aux_sign (prec emax : Z) (sx : bool) (m e : Z) (l : location) :
  0 <= m ->
  match binary_round_aux prec emax sx m e l with
  | S754_zero s | S754_infinity s | S754_finite s _ _ => s = sx
  | S754_nan => False
  end.
Proof.
  intros Hm. unfold binary_round_aux.
  pose proof (shr_fexp_nonneg prec emax m e l Hm) as H1.
  destruct (shr_fexp prec emax m e l) as [mrs' e']. simpl in H1.
  pose proof (shr_fexp_nonneg prec emax _ e' loc_Exact
                (round_nearest_even_nonneg _ (loc_of_shr_record mrs') H1)) as H2.
  destruct (shr_fexp prec emax _ e' loc_Exact) as [mrs'' e'']. simpl in H2.
  destruct (shr_m mrs'') as [|p|p]; [reflexivity | | lia].
  destruct (e'' <=? emax - prec); reflexivity.
Qed.

Lemma SFdiv_core_binary_nonneg (prec emax : Z) (m1 : positive) (e1 : Z) (m2 : positive)
  (e2 : Z) :
  0 <= fst (fst (SFdiv_core_binary prec emax (Z.pos m1) e1 (Z.pos m2) e2)).
Proof.
  unfold SFdiv_core_binary.
  set (s := _ - _ - _).
  set (m' := match s with Z.pos _ => _ | Z0 => _ | Z.neg _ => _ end).
  assert (Hm' : 0 <= m').
  { subst m'. destruct s; try lia. apply Z.shiftl_nonneg. lia. }
  pose proof (Z_div_mod m' (Z.pos m2) ltac:(lia)) as Hd.
  destruct (Z.div_eucl m' (Z.pos m2)) as [q r]. simpl.
  destruct Hd as [Hq Hr]. nia.
Qed.

(** A nonnegative finite float divided by a positive float is
    nonnegative, whatever the rounding. *)
Lemma float_div_nonneg (x s : float) :
  PrimFloat.leb 0 x = true ->
  PrimFloat.ltb x infinity = true ->
  PrimFloat.ltb 0 s = true ->
  PrimFloat.leb 0 (PrimFloat.div x s) = true.
Proof.
  rewrite !FloatAxioms.leb_spec, !FloatAxioms.ltb_spec, div_spec.
  change (Prim2SF 0) with (S754_zero false).
  change (Prim2SF infinity) with (S754_infinity false).
  unfold SF64div, SFdiv.
  destruct (Prim2SF x) as [sx|[|]| |[|] mx ex], (Prim2SF s) as [ss|[|]| |[|] ms es];
    try discriminate; try reflexivity; intros _ _ _.
  pose proof (SFdiv_core_binary_nonneg prec emax mx ex ms es) as Hq.
  destruct (SFdiv_core_binary prec emax (Z.pos mx) ex (Z.pos ms) es) as [[mz ez] lz].
  simpl in Hq.
  pose proof (binary_round_aux_sign prec emax (xorb false false) mz ez lz Hq) as Hs.
  destruct (binary_round_aux prec emax (xorb false false) mz ez lz) as [sz|sz| |sz mr er];
    try contradiction; simpl in Hs; subst sz; reflexivity.
Qed.

(** The kernels in binary64: when the resampled kernels have finite
    nonnegative entries and a positive sum, every entry of every stored
    kernel compares [>= 0] (in particular none is a NaN). *)
Lemma mask_entries_nonnegative_binary64
  (warp_rotation : matrix float -> Z * Z -> Z -> Z * Z -> matrix float)
  (w : Z) (scales : list Z) (n : Z) (self : MSLD float) :
  (forall l angle, 1 <= l ->
     all_entries (fun x => PrimFloat.leb 0 x = true /\ PrimFloat.ltb x infinity = true)
                 (rotated_mask warp_rotation l angle)) ->
  (forall l angle, 1 <= l ->
     PrimFloat.ltb 0 (np_sum (rotated_mask warp_rotation l angle)) = true) ->
  MSLD_init warp_rotation w scales n = Ok self ->
  forall l stack kernel,
    line_detectors_masks self !! l = Some stack -> kernel ∈ stack ->
    all_entries (fun x => PrimFloat.leb 0 x = true) kernel.
Proof.
  intros Hfin Hpos Hinit l stack kernel Hl Hk.
  destruct (stored_slice _ _ _ _ _ _ _ _ Hinit Hl Hk) as (Hl1 & angle & ->).
  specialize (Hfin l angle Hl1). specialize (Hpos l angle Hl1).
  unfold normalized_mask, mat_map, all_entries in *.
  rewrite Forall_fmap. eapply Forall_impl; [exact Hfin|].
  intros row Hrow. simpl. rewrite Forall_fmap.
  eapply Forall_impl; [exact Hrow|].
  intros x [Hx0 Hxf]. simpl. now apply float_div_nonneg.
Qed.

(** ** Which configurations the constructor accepts *)

Section ConstructorDomain.
Context {F : Type} `{Scalar F}.
Variable warp_rotation : matrix F -> Z * Z -> Z -> Z * Z -> matrix F.

Lemma orientation_angles_total (n : Z) :
  1 <= n <= 180 ->
  orientation_angles n = Ok (py_range 0 180 (180 / n)) /\ 1 <= 180 / n.
Proof.
  intros Hn. unfold orientation_angles.
  assert (Hs : 1 <= 180 / n) by (apply Z.div_le_lower_bound; lia).
  rewrite Z.quot_div_nonneg by lia.
  destruct (n =? 0) eqn:En; [lia|].
  destruct (180 / n =? 0) eqn:Es; [lia|]. split; [reflexivity | assumption].
Qed.

Lemma line_detector_stack_total (n l : Z) :
  1 <= l -> 1 <= n <= 180 ->
  line_detector_stack warp_rotation n l
  = Ok (normalized_mask warp_rotation l <$> py_range 0 180 (180 / n)).
Proof.
  intros Hl Hn. unfold line_detector_stack.
  destruct (l <? 0) eqn:El; [lia|]. destruct (l =? 0) eqn:El0; [lia|].
  destruct (orientation_angles_total n Hn) as [-> Hs]. simpl.
  assert (Hlen : (1 <= length (py_range 0 180 (180 / n)))%nat).
  { rewrite length_py_range by lia.
    assert (1 <= (180 - 0 + 180 / n - 1) / (180 / n))
      by (apply Z.div_le_lower_bound; lia).
    lia. }
  destruct (py_range 0 180 (180 / n)) as [|a rest]; [simpl in Hlen; lia | reflexivity].
Qed.

Lemma build_masks_total (n : Z) (scales : list Z) :
  Forall (fun l => 1 <= l) scales -> 1 <= n <= 180 ->
  exists d, build_masks warp_rotation n scales = Ok d.
Proof.
  intros Hl Hn. unfold build_masks.
  destruct (for_each_invariant (fun _ => True)
              (fun (d : gmap Z (list (matrix F))) l =>
                 do stack <- line_detector_stack warp_rotation n l;
                          Ok (<[l := stack]> d)) scales) with (s := (∅ : gmap Z (list (matrix F))))
    as (d & Hd & _); [|trivial|eauto].
  intros d l Hin _. rewrite Forall_forall in Hl.
  rewrite (line_detector_stack_total n l) by auto. simpl. eauto.
Qed.
End ConstructorDomain.

(** X1.  The constructor returns an instance exactly when the window size is
    not negative and either no scale is requested or every scale is at
    least 1 and the number of orientations lies between 1 and 180. *)
Theorem MSLD_init_accepts
  {F : Type} `{Scalar F}
  (warp_rotation : matrix F -> Z * Z -> Z -> Z * Z -> matrix F)
  (w : Z) (scales : list Z) (n : Z) :
  is_ok (MSLD_init warp_rotation w scales n) = true <->
  0 <= w /\ (scales = [] \/ (Forall (fun l => 1 <= l) scales /\ 1 <= n <= 180)).
Proof.
  split.
  - destruct (MSLD_init warp_rotation w scales n) as [self|e] eqn:Hinit; [|discriminate].
    intros _. destruct (MSLD_init_ok _ _ _ _ _ Hinit) as (Hw & _ & _ & _ & _ & Hb).
    split; [assumption|].
    destruct scales as [|l0 rest]; [now left | right].
    assert (Hall : forall l, l ∈ l0 :: rest -> 1 <= l /\ 1 <= n <= 180).
    { intros l Hl. destruct (build_masks_from _ _ _ _ _ Hb l) as [Hin _].
      destruct (Hin Hl) as (stack & Hst & _).
      apply line_detector_stack_ok in Hst. tauto. }
    split; [|apply (Hall l0); left].
    apply Forall_forall. intros l Hl. now apply Hall.
  - intros [Hw Hcfg]. unfold MSLD_init.
    destruct (w <? 0) eqn:Ew; [lia|].
    destruct Hcfg as [-> | [Hl Hn]]; [reflexivity|].
    destruct (build_masks_total warp_rotation n scales Hl Hn) as (d & ->). reflexivity.
Qed.

(** X2.  With a first scale that is fine, an orientation count outside
    1..180 makes the constructor fail: with [ZeroDivisionError] for 0
    (the quotient [180 / n_orientation]) and with [ValueError]
    otherwise (a zero step of [range] above 180, a stack of no slice
    below 0). *)
Theorem MSLD_init_orientation_errors
  {F : Type} `{Scalar F}
  (warp_rotation : matrix F -> Z * Z -> Z -> Z * Z -> matrix F)
  (w l : Z) (rest : list Z) (n : Z) :
  0 <= w -> 1 <= l -> ~ (1 <= n <= 180) ->
  MSLD_init warp_rotation w (l :: rest) n
  = Raise (if n =? 0 then ZeroDivisionError else ValueError).
Proof.
  intros Hw Hl Hn. unfold MSLD_init, build_masks.
  destruct (w <? 0) eqn:Ew; [lia|]. simpl.
  unfold line_detector_stack, orientation_angles.
  destruct (l <? 0) eqn:El; [lia|]. destruct (l =? 0) eqn:El0; [lia|].
  destruct (n =? 0) eqn:En; [reflexivity|]. simpl.
  destruct (Z.quot 180 n =? 0) eqn:Es; [reflexivity|]. simpl.
  assert (Hneg : n < 0).
  { destruct (Z.lt_ge_cases n 0); [assumption|].
    assert (180 < n) by lia.
    rewrite Z.quot_small in Es by lia. discriminate. }
  assert (Hq : Z.quot 180 n < 0).
  { pose proof (Z.quot_opp_r 180 n ltac:(lia)) as Ho.
    assert (0 <= Z.quot 180 (- n)) by (apply Z.quot_pos; lia). lia. }
  rewrite py_range_negative_step by lia. reflexivity.
Qed.

Lemma MSLD_init_orientation_errors_witness :
  MSLD_init (F:=float) warp_identity 3 [3; 5] 200
  = Raise (if 200 =? 0 then ZeroDivisionError else ValueError).
Proof.
  apply (MSLD_init_orientation_errors warp_identity 3 3 [5] 200); lia.
Defined.

(** ** The orientations of a stored stack *)

Lemma stored_stack {F : Type} `{Scalar F}
  (warp_rotation : matrix F -> Z * Z -> Z -> Z * Z -> matrix F)
  (w : Z) (scales : list Z) (n : Z) (self : MSLD F) (l : Z) (stack : list (matrix F)) :
  MSLD_init warp_rotation w scales n = Ok self ->
  line_detectors_masks self !! l = Some stack ->
  1 <= l /\ 1 <= n <= 180 /\ 1 <= 180 / n /\
  stack = normalized_mask warp_rotation l <$> py_range 0 180 (180 / n).
Proof.
  intros Hinit Hl.
  destruct (MSLD_init_ok _ _ _ _ _ Hinit) as (_ & _ & _ & _ & _ & Hb).
  destruct (build_masks_lookup _ _ _ _ _ _ Hb Hl) as [_ Hst].
  apply line_detector_stack_ok in Hst as (Hl1 & Hn & -> & _).
  repeat split; try lia. apply Z.div_le_lower_bound; lia.
Qed.

(** X3.  Every stored stack holds the kernel at the angles [0], [step],
    [2 * step], ... below 180 degrees, for [step] the integer part of
    [180 / n_orientation]: between [n_orientation] and 180 slices. *)
Theorem stack_orientations
  {F : Type} `{Scalar F}
  (warp_rotation : matrix F -> Z * Z -> Z -> Z * Z -> matrix F)
  (w : Z) (scales : list Z) (n : Z) (self : MSLD F) (l : Z) (stack : list (matrix F)) :
  MSLD_init warp_rotation w scales n = Ok self ->
  line_detectors_masks self !! l = Some stack ->
  length stack = Z.to_nat ((179 + 180 / n) / (180 / n)) /\
  (Z.to_nat n <= length stack <= 180)%nat /\
  forall k, (k < length stack)%nat ->
    stack !! k = Some (normalized_mask warp_rotation l (Z.of_nat k * (180 / n))) /\
    0 <= Z.of_nat k * (180 / n) < 180.
Proof.
  intros Hinit Hl.
  destruct (stored_stack _ _ _ _ _ _ _ Hinit Hl) as (Hl1 & Hn & Hs & ->).
  set (s := 180 / n) in *.
  assert (Hlen : length (normalized_mask warp_rotation l <$> py_range 0 180 s)
                 = Z.to_nat ((179 + s) / s)).
  { rewrite length_fmap, length_py_range by lia. f_equal. f_equal. lia. }
  assert (Hq : 0 <= (179 + s) / s) by (apply Z.div_pos; lia).
  assert (Hmul : s * ((179 + s) / s) <= 179 + s) by (apply Z.mul_div_le; lia).
  split; [exact Hlen|]. split; [split|].
  - rewrite Hlen. apply Z2Nat.inj_le; [lia | lia |].
    apply Z.div_le_lower_bound; [lia|].
    pose proof (Z.mul_div_le 180 n ltac:(lia)). fold s in H0. lia.
  - rewrite Hlen. change 180%nat with (Z.to_nat 180).
    apply Z2Nat.inj_le; [lia | lia |].
    apply Z.div_le_upper_bound; lia.
  - intros k Hk. rewrite Hlen in Hk.
    rewrite list_lookup_fmap, lookup_py_range.
    + simpl. split; [reflexivity|]. nia.
    + lia.
    + rewrite length_py_range by lia.
      replace (180 - 0 + s - 1) with (179 + s) by lia. exact Hk.
Qed.

Lemma stack_orientations_witness :
  exists (self : MSLD float) (stack : list (matrix float)),
    MSLD_init warp_identity 3 [3] 7 = Ok self /\
    line_detectors_masks self !! 3 = Some stack /\
    length stack = Z.to_nat ((179 + 180 / 7) / (180 / 7)) /\
    (Z.to_nat 7 <= length stack <= 180)%nat /\
    forall k, (k < length stack)%nat ->
      stack !! k = Some (normalized_mask warp_identity 3 (Z.of_nat k * (180 / 7))) /\
      0 <= Z.of_nat k * (180 / 7) < 180.
Proof.
  do 2 eexists. split; [vm_compute; reflexivity|].
  split; [vm_compute; reflexivity|].
  eapply (stack_orientations warp_identity 3 [3] 7 _ 3); vm_compute; reflexivity.
Defined.

(** X4.  A stored stack has exactly [n_orientation] slices, the shape
    [(l, l, n_orientation)] of the documentation, if and only if
    [n_orientation] divides 180. *)
Theorem stack_size_exact_iff_divisor
  {F : Type} `{Scalar F}
  (warp_rotation : matrix F -> Z * Z -> Z -> Z * Z -> matrix F)
  (w : Z) (scales : list Z) (n : Z) (self : MSLD F) (l : Z) (stack : list (matrix F)) :
  MSLD_init warp_rotation w scales n = Ok self ->
  line_detectors_masks self !! l = Some stack ->
  (length stack = Z.to_nat n <-> 180 mod n = 0).
Proof.
  intros Hinit Hl.
  destruct (stored_stack _ _ _ _ _ _ _ Hinit Hl) as (Hl1 & Hn & Hs & ->).
  rewrite length_fmap. split.
  - intros Hlen. rewrite length_py_range in Hlen by lia.
    destruct (Z.eq_dec (180 mod n) 0) as [|Hne]; [assumption | exfalso].
    pose proof (Z.div_mod 180 n ltac:(lia)) as Hd.
    pose proof (Z.mod_pos_bound 180 n ltac:(lia)) as Hm.
    assert (Hlow : n + 1 <= (180 - 0 + 180 / n - 1) / (180 / n)).
    { apply Z.div_le_lower_bound; [lia|]. nia. }
    lia.
  - intros Hdiv. now apply orientation_count_divisor.
Qed.

Lemma stack_size_exact_iff_divisor_witness :
  exists (self : MSLD float) (stack : list (matrix float)),
    MSLD_init warp_identity 3 [3] 12 = Ok self /\
    line_detectors_masks self !! 3 = Some stack /\
    (length stack = Z.to_nat 12 <-> 180 mod 12 = 0).
Proof.
  do 2 eexists. split; [vm_compute; reflexivity|].
  split; [vm_compute; reflexivity|].
  eapply (stack_size_exact_iff_divisor warp_identity 3 [3] 12 _ 3); vm_compute; reflexivity.
Defined.

(** ** The averaging mask *)

Lemma vec_sum_replicate (k : nat) (x : Q) :
  (vec_sum (replicate k x) == inject_Z (Z.of_nat k) * x)%Q.
Proof.
  induction k as [|k IH].
  - unfold vec_sum. simpl. change (inject_Z 0) with 0%Q. ring.
  - simpl replicate. rewrite vec_sum_cons, IH, Nat2Z.inj_succ.
    unfold Z.succ. rewrite inject_Z_plus. change (inject_Z 1) with 1%Q. ring.
Qed.

Lemma vec_sum_concat_replicate (k : nat) (row : list Q) :
  (vec_sum (concat (replicate k row)) == inject_Z (Z.of_nat k) * vec_sum row)%Q.
Proof.
  induction k as [|k IH].
  - unfold vec_sum at 1. simpl. change (inject_Z 0) with 0%Q. ring.
  - simpl replicate. simpl concat. rewrite vec_sum_app, IH, Nat2Z.inj_succ.
    unfold Z.succ. rewrite inject_Z_plus. change (inject_Z 1) with 1%Q. ring.
Qed.

Lemma avg_mask_entry_value (w : Z) :
  (inject_Z 1 * inject_Z 1 / inject_Z (w ^ 2) == 1 / inject_Z (w ^ 2))%Q.
Proof. change (inject_Z 1) with 1%Q. now rewrite Qmult_1_l. Qed.

Lemma avg_mask_built
  (warp_rotation : matrix Q -> Z * Z -> Z -> Z * Z -> matrix Q)
  (w : Z) (scales : list Z) (n : Z) (self : MSLD Q) :
  MSLD_init warp_rotation w scales n = Ok self ->
  avg_mask self
  = replicate (Z.to_nat w)
              (replicate (Z.to_nat w) (inject_Z 1 * inject_Z 1 / inject_Z (w ^ 2))%Q).
Proof.
  intros Hinit. unfold MSLD_init in Hinit.
  destruct (w <? 0) eqn:Ew; [discriminate|].
  apply bind_ok in Hinit as (masks & _ & [= <-]). simpl avg_mask.
  unfold mat_map, np_ones. now rewrite !fmap_replicate.
Qed.

Lemma avg_mask_sum_one
  (warp_rotation : matrix Q -> Z * Z -> Z -> Z * Z -> matrix Q)
  (w : Z) (scales : list Z) (n : Z) (self : MSLD Q) :
  MSLD_init warp_rotation w scales n = Ok self ->
  1 <= w ->
  (np_sum (avg_mask self) == 1)%Q.
Proof.
  intros Hinit Hw. rewrite (avg_mask_built _ _ _ _ _ Hinit).
  unfold np_sum, flatten.
  rewrite vec_sum_concat_replicate, vec_sum_replicate, Z2Nat.id by lia.
  rewrite avg_mask_entry_value, Z.pow_2_r, inject_Z_mult. field.
  unfold Qeq. simpl. lia.
Qed.

(** X5.  In exact arithmetic the averaging mask of an instance with a
    positive window size [W] is the [W] x [W] array whose entries all
    equal [1 / W^2], and it sums to 1. *)
Theorem avg_mask_uniform
  (warp_rotation : matrix Q -> Z * Z -> Z -> Z * Z -> matrix Q)
  (w : Z) (scales : list Z) (n : Z) (self : MSLD Q) :
  MSLD_init warp_rotation w scales n = Ok self ->
  1 <= w ->
  shape (avg_mask self) = replicate (Z.to_nat w) (Z.to_nat w) /\
  all_entries (fun x => (x == 1 / inject_Z (w ^ 2))%Q) (avg_mask self) /\
  (np_sum (avg_mask self) == 1)%Q.
Proof.
  intros Hinit Hw. split; [|split].
  - rewrite (avg_mask_built _ _ _ _ _ Hinit).
    unfold shape. rewrite fmap_replicate, length_replicate. reflexivity.
  - rewrite (avg_mask_built _ _ _ _ _ Hinit).
    unfold all_entries. apply Forall_forall. intros row Hrow.
    apply elem_of_replicate in Hrow as [-> _].
    apply Forall_forall. intros x Hx. apply elem_of_replicate in Hx as [-> _].
    apply avg_mask_entry_value.
  - eapply avg_mask_sum_one; eassumption.
Qed.

Lemma avg_mask_uniform_witness :
  exists self : MSLD Q,
    MSLD_init warp_identity 3 [3] 1 = Ok self /\
    shape (avg_mask self) = replicate (Z.to_nat 3) (Z.to_nat 3) /\
    all_entries (fun x => (x == 1 / inject_Z (3 ^ 2))%Q) (avg_mask self) /\
    (np_sum (avg_mask self) == 1)%Q.
Proof.
  eexists. split; [vm_compute; reflexivity|].
  eapply (avg_mask_uniform warp_identity 3 [3] 1); [vm_compute; reflexivity | lia].
Defined.

(** ** The detector on the scales of the instance and on other scales *)





(** ** The raw response pixel by pixel *)

Lemma py_range_indices (n : Z) : py_range 0 n 1 = Z.of_nat <$> seq 0 (Z.to_nat n).
Proof.
  unfold py_range. simpl.
  replace ((n - 0 + 1 - 1) / 1) with n by (rewrite Z.div_1_r; lia).
  apply list_fmap_ext. intros _ k _. lia.
Qed.

Section RawResponse.
Context {F : Type} `{Scalar F}.

Lemma entry_convolve (image weights : matrix F) (i j : nat) :
  entry (convolve image weights) i j
  = (fun _ => convolve_at image weights (Z.of_nat (length image))
                          (Z.of_nat (length (nth i image [])))
                          (Z.of_nat i) (Z.of_nat j)) <$> entry image i j.
Proof.
  unfold entry, convolve. rewrite list_lookup_imap.
  destruct (image !! i) as [row|] eqn:Hi; simpl; [|reflexivity].
  rewrite list_lookup_imap, (nth_lookup_Some _ _ _ _ Hi). reflexivity.
Qed.

(** The loop over the orientations reads the slices [0 .. n-1] of the
    stack, in order. *)
Lemma orientation_loop (image : matrix F) (stack : list (matrix F)) :
  forall (len a : nat) (acc : matrix F),
    (a + len <= length stack)%nat ->
    for_each (fun matrice_max n =>
                do kernel <- slice stack n;
                Ok (mat_zip np_maximum (convolve image kernel) matrice_max))
             (Z.of_nat <$> seq a len) acc
    = Ok (fold_left (fun mm kernel => mat_zip np_maximum (convolve image kernel) mm)
                    (take len (drop a stack)) acc).
Proof.
  induction len as [|len IH]; intros a acc Hlen; simpl.
  - reflexivity.
  - destruct (lookup_lt_is_Some_2 stack a ltac:(lia)) as [kernel Hk].
    unfold slice at 1. rewrite Nat2Z.id, Hk. simpl.
    rewrite (drop_S _ _ _ Hk). simpl.
    rewrite IH by lia. reflexivity.
Qed.

Lemma raw_response_fold (self : MSLD F) (image : matrix F) (l : Z)
  (stack : list (matrix F)) :
  line_detectors_masks self !! l = Some stack ->
  (Z.to_nat (n_orientation self) <= length stack)%nat ->
  raw_response self image l
  = Ok (mat_zip s_sub
          (fold_left (fun mm kernel => mat_zip np_maximum (convolve image kernel) mm)
                     (take (Z.to_nat (n_orientation self)) stack)
                     (np_zeros_like image))
          (convolve image (avg_mask self))).
Proof.
  intros Hl Hlen. unfold raw_response, dict_get. rewrite Hl. simpl.
  rewrite py_range_indices, (orientation_loop image stack _ 0) by lia.
  reflexivity.
Qed.

Lemma shape_fold_max (image : matrix F) (kernels : list (matrix F)) :
  forall acc : matrix F,
    shape acc = shape image ->
    shape (fold_left (fun mm kernel => mat_zip np_maximum (convolve image kernel) mm)
                     kernels acc) = shape image.
Proof.
  induction kernels as [|k ks IH]; intros acc Hs; simpl; [assumption|].
  apply IH. rewrite shape_mat_zip; rewrite shape_convolve; congruence.
Qed.

Lemma entry_fold_max (image : matrix F) (kernels : list (matrix F)) (i j : nat) :
  forall acc : matrix F,
    shape acc = shape image ->
    entry (fold_left (fun mm kernel => mat_zip np_maximum (convolve image kernel) mm)
                     kernels acc) i j
    = (fun m0 =>
         fold_left (fun m kernel =>
                      np_maximum (convolve_at image kernel (Z.of_nat (length image))
                                              (Z.of_nat (length (nth i image [])))
                                              (Z.of_nat i) (Z.of_nat j)) m)
                   kernels m0) <$> entry acc i j.
Proof.
  induction kernels as [|k ks IH]; intros acc Hs; simpl.
  - now destruct (entry acc i j).
  - rewrite IH by (rewrite shape_mat_zip; rewrite shape_convolve; congruence).
    rewrite entry_mat_zip, entry_convolve.
    destruct (entry acc i j) as [m0|] eqn:Em.
    + destruct (entry_same_shape acc image i j Hs) as [x Hx]; [eauto|].
      rewrite Hx. reflexivity.
    + destruct (entry image i j); reflexivity.
Qed.
(** The raw response on a well-formed instance, entry by entry. *)
Lemma raw_response_entries (self : MSLD F) (image : matrix F) (l : Z)
  (stack : list (matrix F)) :
  line_detectors_masks self !! l = Some stack ->
  (Z.to_nat (n_orientation self) <= length stack)%nat ->
  exists R,
    raw_response self image l = Ok R /\
    shape R = shape image /\
    forall i j x,
      entry image i j = Some x ->
      entry R i j
      = Some (line_response (take (Z.to_nat (n_orientation self)) stack)
                            (avg_mask self) image i j).
Proof.
  intros Hd Hlen.
  pose proof (raw_response_fold self image l stack Hd Hlen) as HR.
  eexists. split; [exact HR|].
  assert (Hz : shape (np_zeros_like (F:=F) image) = shape image)
    by apply shape_np_zeros_like.
  split.
  - rewrite shape_mat_zip; rewrite shape_fold_max by assumption;
      [reflexivity | now rewrite shape_convolve].
  - intros i j x Hx.
    rewrite entry_mat_zip, entry_fold_max, entry_convolve, entry_np_zeros_like
      by assumption.
    rewrite Hx. reflexivity.
Qed.
End RawResponse.



(** X9.  The slices of a stack beyond the first [n_orientation] are never
    read: cutting the stack of a scale down to its first
    [n_orientation] slices changes no result of [basic_line_detector]
    at that scale. *)
Theorem surplus_slices_ignored
  {F : Type} `{ScalarSqrt F} (self : MSLD F) (image : matrix F) (l : Z)
  (stack : list (matrix F)) :
  line_detectors_masks self !! l = Some stack ->
  (Z.to_nat (n_orientation self) <= length stack)%nat ->
  basic_line_detector (drop_surplus_slices self l) image l
  = basic_line_detector self image l.
Proof.
  intros Hl Hlen. unfold basic_line_detector.
  rewrite (raw_response_fold self image l stack Hl Hlen).
  rewrite (raw_response_fold (drop_surplus_slices self l) image l
             (take (Z.to_nat (n_orientation self)) stack)).
  - simpl. rewrite take_take, Nat.min_id. reflexivity.
  - simpl. rewrite lookup_alter_eq, Hl. reflexivity.
  - simpl. rewrite length_take. lia.
Qed.

Lemma surplus_slices_ignored_witness :
  exists (self : MSLD float) (stack : list (matrix float)),
    MSLD_init warp_identity 3 [3] 7 = Ok self /\
    line_detectors_masks self !! 3 = Some stack /\
    length stack = 8%nat /\
    basic_line_detector (drop_surplus_slices self 3) example_image 3
    = basic_line_detector self example_image 3.
Proof.
  do 2 eexists. split; [vm_compute; reflexivity|].
  split; [vm_compute; reflexivity|]. split; [reflexivity|].
  eapply surplus_slices_ignored; [vm_compute; reflexivity | vm_compute; lia].
Defined.

(** ** Uniform images in exact arithmetic *)

Lemma all_entries_of_entry {A : Type} (P : A -> Prop) (a : matrix A) :
  (forall i j x, entry a i j = Some x -> P x) -> all_entries P a.
Proof.
  intros He. unfold all_entries. apply Forall_lookup. intros i row Hi.
  apply Forall_lookup. intros j x Hj. apply (He i j x).
  unfold entry. now rewrite Hi.
Qed.

Lemma vec_sum_mul_r (v : list Q) (c : Q) :
  (vec_sum ((fun x => x * c) <$> v) == vec_sum v * c)%Q.
Proof.
  induction v as [|x v IH].
  - unfold vec_sum. simpl. change (inject_Z 0) with 0%Q. ring.
  - rewrite fmap_cons, !vec_sum_cons, IH. ring.
Qed.

Lemma reflect_index_bound (n i : Z) : 0 < n -> (reflect_index n i < Z.to_nat n)%nat.
Proof.
  intros Hn. unfold reflect_index.
  pose proof (Z.mod_pos_bound i (2 * n) ltac:(lia)) as Hr.
  destruct (i mod (2 * n) <? n) eqn:E; lia.
Qed.

Section UniformImage.
Variables (h wd : nat) (c : Q).
Hypothesis h_pos : (0 < h)%nat.
Hypothesis wd_pos : (0 < wd)%nat.

Local Abbreviation image := (replicate h (replicate wd c) : matrix Q).

Lemma get2_uniform (a b : nat) : (a < h)%nat -> (b < wd)%nat -> get2 image a b = c.
Proof.
  intros Ha Hb. apply get2_entry. unfold entry.
  rewrite lookup_replicate_2 by assumption. now apply lookup_replicate_2.
Qed.

(** The convolution of a uniform image is the value of the image
    times the sum of the weights. *)
Lemma convolve_at_uniform (weights : matrix Q) (i j : Z) :
  (convolve_at image weights (Z.of_nat h) (Z.of_nat wd) i j == np_sum weights * c)%Q.
Proof.
  unfold convolve_at, np_sum, flatten.
  rewrite <- vec_sum_mul_r.
  assert (Hrows :
    imap (fun a wrow =>
            imap (fun b wab =>
                    s_mul wab
                      (get2 image
                         (reflect_index (Z.of_nat h)
                            (i + Z.of_nat (length weights) / 2 - Z.of_nat a))
                         (reflect_index (Z.of_nat wd)
                            (j + Z.of_nat (length wrow) / 2 - Z.of_nat b))))
                 wrow) weights
    = (fun wrow : list Q => (fun x => (x * c)%Q) <$> wrow) <$> weights).
  { rewrite <- imap_const. apply imap_ext. intros a wrow _. simpl.
    rewrite <- imap_const. apply imap_ext. intros b wab _. simpl.
    rewrite get2_uniform; [reflexivity | |].
    - pose proof (reflect_index_bound (Z.of_nat h) (i + Z.of_nat (length weights) / 2 - Z.of_nat a)
                    ltac:(lia)). lia.
    - pose proof (reflect_index_bound (Z.of_nat wd) (j + Z.of_nat (length wrow) / 2 - Z.of_nat b)
                    ltac:(lia)). lia. }
  rewrite Hrows.
  replace (concat ((fun wrow : list Q => (fun x => (x * c)%Q) <$> wrow) <$> weights))
    with ((fun x => (x * c)%Q) <$> concat weights); [reflexivity|].
  symmetry. apply (flatten_mat_map (fun x => (x * c)%Q) weights).
Qed.

(** The largest of a nonnegative value [c] and of anything equal to 0
    or to [c] is [c]. *)
Lemma np_maximum_uniform (a m : Q) :
  (0 <= c)%Q -> (a == c)%Q -> (m == 0 \/ m == c)%Q -> (np_maximum a m == c)%Q.
Proof.
  intros Hc Ha Hm. unfold np_maximum, s_isnan. simpl.
  destruct (Qle_bool m a) eqn:E; simpl; [assumption|].
  destruct (Qle_bool a a) eqn:Eaa; simpl; [|assumption].
  assert (Hlt : ~ (m <= a)%Q) by (rewrite <- Qle_bool_iff; congruence).
  exfalso. apply Hlt. rewrite Ha. destruct Hm as [-> | ->]; [assumption | apply Qle_refl].
Qed.

Lemma fold_maximum_uniform {K : Type} (f : K -> Q) (ks : list K) :
  (0 <= c)%Q ->
  Forall (fun k => (f k == c)%Q) ks ->
  forall m, (m == 0 \/ m == c)%Q -> ks <> [] ->
    (fold_left (fun m k => np_maximum (f k) m) ks m == c)%Q.
Proof.
  intros Hc. induction 1 as [|k ks Hk Hks IH]; intros m Hm Hne; [congruence|].
  simpl. pose proof (np_maximum_uniform (f k) m Hc Hk Hm) as Hstep.
  destruct ks as [|k' ks']; [exact Hstep|].
  apply IH; [now right | discriminate].
Qed.
End UniformImage.

(** X10.  In exact arithmetic, on an instance built by the constructor with a
    positive window size, the raw response of the line detector to a
    uniform nonnegative image is zero at every pixel and every scale:
    each oriented kernel and the averaging mask sum to 1, so the
    best-aligned response and the local average both equal the value of
    the image. *)
Theorem uniform_image_raw_response_zero
  (warp_rotation : matrix Q -> Z * Z -> Z -> Z * Z -> matrix Q)
  (w : Z) (scales : list Z) (n : Z) (self : MSLD Q) (l : Z) (h wd : nat) (c : Q) :
  resampling_nonnegative warp_rotation ->
  rotation_fixes_center warp_rotation ->
  MSLD_init warp_rotation w scales n = Ok self ->
  1 <= w ->
  l ∈ scales ->
  (0 <= c)%Q ->
  exists R,
    raw_response self (replicate h (replicate wd c)) l = Ok R /\
    shape R = replicate h wd /\
    all_entries (fun x => (x == 0)%Q) R.
Proof.
  intros Hnn Hcen Hinit Hw Hl Hc.
  set (image := replicate h (replicate wd c) : matrix Q).
  destruct (MSLD_init_scale _ _ _ _ _ l Hinit Hl) as (stack & Hd & Hst & Hlen).
  destruct (stored_stack _ _ _ _ _ _ _ Hinit Hd) as (Hl1 & Hn & _ & _).
  destruct (MSLD_init_ok _ _ _ _ _ Hinit) as (_ & _ & _ & Hno & _).
  destruct (raw_response_entries self image l stack Hd Hlen) as (R & HR & Hs & Hpix).
  exists R. split; [exact HR|]. split.
  { rewrite Hs. unfold shape, image. now rewrite fmap_replicate, length_replicate. }
  apply all_entries_of_entry. intros i j x Hx.
  destruct (entry_same_shape R image i j Hs) as [y Hy]; [eauto|].
  rewrite (Hpix i j y Hy) in Hx. injection Hx as <-.
  assert (Hij : (i < h)%nat /\ (j < wd)%nat).
  { unfold entry, image in Hy.
    destruct (replicate h (replicate wd c) !! i) as [row|] eqn:Hi; [|discriminate].
    apply lookup_replicate in Hi as [-> Hi]. apply lookup_replicate in Hy as [_ Hj].
    split; assumption. }
  destruct Hij as [Hi Hj].
  unfold line_response.
  replace (length image) with h by (unfold image; now rewrite length_replicate).
  replace (nth i image []) with (replicate wd c)
    by (symmetry; apply nth_lookup_Some; unfold image; now apply lookup_replicate_2).
  rewrite length_replicate.
  assert (Hmax :
    (fold_left (fun m kernel =>
                  np_maximum (convolve_at image kernel (Z.of_nat h) (Z.of_nat wd)
                                          (Z.of_nat i) (Z.of_nat j)) m)
               (take (Z.to_nat (n_orientation self)) stack) s_zero == c)%Q).
  { apply (fold_maximum_uniform c
             (fun kernel => convolve_at image kernel (Z.of_nat h) (Z.of_nat wd)
                                        (Z.of_nat i) (Z.of_nat j))); [assumption | | | ].
    - apply Forall_forall. intros kernel Hk.
      apply subseteq_take in Hk.
      destruct (stored_slice _ _ _ _ _ _ _ _ Hinit Hd Hk) as (_ & angle & ->).
      unfold image. rewrite convolve_at_uniform by lia.
      rewrite (normalized_mask_sum warp_rotation Hnn Hcen l angle Hl1). ring.
    - left. reflexivity.
    - intros E. apply (f_equal length) in E. rewrite length_take in E.
      simpl in E. lia. }
  assert (Havg :
    (convolve_at image (avg_mask self) (Z.of_nat h) (Z.of_nat wd)
                 (Z.of_nat i) (Z.of_nat j) == c)%Q).
  { unfold image. rewrite convolve_at_uniform by lia.
    rewrite (avg_mask_sum_one _ _ _ _ _ Hinit Hw). ring. }
  simpl s_sub. rewrite Hmax, Havg. ring.
Qed.

Lemma uniform_image_raw_response_zero_witness :
  exists (self : MSLD Q) (R : matrix Q),
    MSLD_init warp_identity 3 [3; 5] 1 = Ok self /\
    raw_response self (replicate 2 (replicate 3 (1 # 2))) 5 = Ok R /\
    shape R = replicate 2 3%nat /\
    all_entries (fun x => (x == 0)%Q) R.
Proof.
  eexists.
  assert (Hinit : MSLD_init (F:=Q) warp_identity 3 [3; 5] 1 = Ok ?[s])
    by (vm_compute; reflexivity).
  destruct (uniform_image_raw_response_zero warp_identity 3 [3; 5] 1 _ 5 2 3 (1 # 2)
              warp_identity_nonnegative warp_identity_fixes_center Hinit)
    as (R & HR & Hs & Hz); [lia | right; left | discriminate |].
  exists R. repeat split; assumption.
Defined.

(** ** The vectors handed to [roc_curve] *)

Lemma shape_eq_shape {A B : Type} (a : matrix A) (b : matrix B) :
  shape_eq a b = true -> shape a = shape b.
Proof.
  unfold shape, shape_eq. revert b.
  induction a as [|ra a IH]; intros [|rb b] Hs; simpl in *; try discriminate; [reflexivity|].
  apply andb_prop in Hs as [Hlen Hall]. apply andb_prop in Hall as [Hr Hall].
  apply Nat.eqb_eq in Hlen, Hr. simpl in Hr. f_equal; [assumption|].
  apply IH. apply andb_true_intro. split; [apply Nat.eqb_eq; lia | assumption].
Qed.

Lemma length_flatten_shape {A B : Type} (a : matrix A) (b : matrix B) :
  shape a = shape b -> length (flatten a) = length (flatten b).
Proof.
  unfold shape, flatten. revert b.
  induction a as [|ra a IH]; intros [|rb b] Hs; simpl in *; try discriminate; [reflexivity|].
  injection Hs as Hr Hs. rewrite !length_app, Hr, (IH b Hs). reflexivity.
Qed.

Lemma length_select {A : Type} (xs : list A) (ms : list bool) :
  length xs = length ms ->
  Z.of_nat (length (map fst (List.filter snd (combine xs ms)))) = py_sum ms.
Proof.
  unfold py_sum. rewrite length_map. revert ms.
  induction xs as [|x xs IH]; intros [|[|] ms] Hlen; simpl in *; try discriminate;
    try reflexivity.
  - injection Hlen as Hlen. specialize (IH ms Hlen). lia.
  - injection Hlen as Hlen. exact (IH ms Hlen).
Qed.

Lemma length_roi_select {A : Type} (a : matrix A) (m : matrix bool) :
  shape a = shape m -> Z.of_nat (length (roi_select a m)) = count_true m.
Proof.
  intros Hs. unfold roi_select, count_true.
  apply length_select. now apply length_flatten_shape.
Qed.

Section RocVectors.
Context {F : Type} `{ScalarSqrt F}.
Variable roc_curve : list bool -> list F -> result (list F * list F * list F).

Lemma roc_step_well_shaped (self : MSLD F) (acc : list (list bool) * list (list F))
  (d : sample F) :
  well_formed self -> n_orientation self + 1 <> 0 -> well_shaped d ->
  exists scores,
    roc_step self acc d
    = Ok (fst acc ++ [roi_select (label d) (mask d)], snd acc ++ [scores]) /\
    Z.of_nat (length scores) = count_true (mask d).
Proof.
  intros Hwf Hn [Hi Hl].
  destruct (multi_scale_line_detector_ok self (image d) Hwf Hn) as (R & HR & Hs).
  unfold roc_step, bool_index. rewrite HR. simpl.
  rewrite (shape_eq_true _ _ Hl). simpl.
  rewrite (shape_eq_true R (mask d)) by congruence. simpl.
  eexists. split; [reflexivity|]. apply length_roi_select. congruence.
Qed.


End RocVectors.



(** ** Samples whose arrays disagree in shape *)

Section RocShapes.
Context {F : Type} `{ScalarSqrt F}.
Variable roc_curve : list bool -> list F -> result (list F * list F * list F).

Lemma shape_eq_false {A B : Type} (a : matrix A) (b : matrix B) :
  shape a <> shape b -> shape_eq a b = false.
Proof.
  intros Hne. destruct (shape_eq a b) eqn:E; [|reflexivity].
  exfalso. apply Hne. now apply shape_eq_shape.
Qed.

Lemma roc_step_ill_shaped (self : MSLD F) (acc : list (list bool) * list (list F))
  (d : sample F) :
  well_formed self -> n_orientation self + 1 <> 0 -> ~ well_shaped d ->
  roc_step self acc d = Raise IndexError.
Proof.
  intros Hwf Hn Hd.
  destruct (multi_scale_line_detector_ok self (image d) Hwf Hn) as (R & HR & Hs).
  unfold roc_step, bool_index. rewrite HR. simpl.
  destruct (decide (shape (label d) = shape (mask d))) as [Hl|Hl].
  - rewrite (shape_eq_true _ _ Hl). simpl.
    rewrite (shape_eq_false R (mask d)); [reflexivity|].
    intros E. apply Hd. split; congruence.
  - now rewrite (shape_eq_false _ _ Hl).
Qed.

Lemma roc_collect_ill_shaped (self : MSLD F) (dataset : list (sample F)) :
  well_formed self -> n_orientation self + 1 <> 0 ->
  Exists (fun d => ~ well_shaped d) dataset ->
  forall acc0, for_each (roc_step self) dataset acc0 = Raise IndexError.
Proof.
  intros Hwf Hn. induction dataset as [|d ds IH]; intros Hex acc0.
  - inversion Hex.
  - simpl.
    destruct (decide (shape (image d) = shape (mask d)
                      /\ shape (label d) = shape (mask d))) as [Hd|Hd].
    + destruct (roc_step_well_shaped self acc0 d Hwf Hn Hd) as (scores & -> & _).
      simpl. apply IH. inversion Hex; subst; [contradiction | assumption].
    + now rewrite roc_step_ill_shaped.
Qed.
End RocShapes.

(** X13.  When some sample of the dataset has a label or an image whose shape
    differs from the shape of its mask, [roc] raises [IndexError] (from
    the boolean indexing) and leaves the instance as it was;
    [learn_threshold] does the same. *)
Theorem roc_shape_mismatch
  {F : Type} `{ScalarSqrt F}
  (roc_curve : list bool -> list F -> result (list F * list F * list F))
  (self : MSLD F) (dataset : list (sample F)) :
  well_formed self ->
  n_orientation self + 1 <> 0 ->
  Exists (fun d => ~ well_shaped d) dataset ->
  roc roc_curve self dataset = (self, Raise IndexError) /\
  learn_threshold roc_curve self dataset = (self, Raise IndexError).
Proof.
  intros Hwf Hn Hex.
  assert (Hroc : roc roc_curve self dataset = (self, Raise IndexError)).
  { unfold roc, roc_collect. now rewrite (roc_collect_ill_shaped self dataset Hwf Hn Hex). }
  split; [exact Hroc|]. unfold learn_threshold. now rewrite Hroc.
Qed.

Lemma roc_shape_mismatch_witness :
  exists self : MSLD float,
    MSLD_init warp_identity 3 [3] 1 = Ok self /\
    roc Sklearn.roc_curve self
        (example_dataset ++ [mkSample example_image [[true; false]] [[true; true; false]]])
    = (self, Raise IndexError).
Proof.
  eexists.
  assert (Hinit : MSLD_init (F:=float) warp_identity 3 [3] 1 = Ok ?[s])
    by (vm_compute; reflexivity).
  split; [exact Hinit|].
  apply (roc_shape_mismatch Sklearn.roc_curve _ _ (MSLD_init_well_formed _ _ _ _ _ Hinit)).
  - vm_compute. discriminate.
  - right. left. intros [Hi _]. vm_compute in Hi. discriminate.
Defined.

(** ** Learning twice *)

Section Idempotence.
Context {F : Type} `{ScalarSqrt F}.
Variable roc_curve : list bool -> list F -> result (list F * list F * list F).

(** The detector reads neither [threshold] nor [y_true]. *)
Lemma roc_collect_same_detector (s s' : MSLD F) (dataset : list (sample F)) :
  same_detector s s' -> roc_collect s' dataset = roc_collect s dataset.
Proof.
  intros (HW & HL & Hn & Ha & Hm).
  destruct s, s'. simpl in *. subst. reflexivity.
Qed.

(** [roc] either raises before it stores anything, or stores the
    labels and calls [roc_curve]; which of the two, and with what,
    depends on the detector and the dataset only. *)
Lemma roc_cases (s : MSLD F) (dataset : list (sample F)) :
  (exists e, forall s', same_detector s s' ->
                        roc roc_curve s' dataset = (s', Raise e))
  \/
  (exists yt yp, forall s', same_detector s s' ->
                            roc roc_curve s' dataset
                            = (set_y_true s' yt, roc_curve yt yp)).
Proof.
  destruct (do acc <- roc_collect s dataset;
            do y_true <- np_concatenate (fst acc);
            do y_pred <- np_concatenate (snd acc);
            Ok (y_true, y_pred)) as [[yt yp]|e] eqn:Hin.
  - right. exists yt, yp. intros s' Hs'. unfold roc.
    rewrite (roc_collect_same_detector s s' dataset Hs'), Hin. reflexivity.
  - left. exists e. intros s' Hs'. unfold roc.
    rewrite (roc_collect_same_detector s s' dataset Hs'), Hin. reflexivity.
Qed.

Lemma same_detector_refl (s : MSLD F) : same_detector s s.
Proof. repeat split. Qed.

Lemma same_detector_set_y_true (s : MSLD F) (v : list bool) :
  same_detector s (set_y_true s v).
Proof. repeat split. Qed.

Lemma same_detector_set_both (s : MSLD F) (v : list bool) (t : F) :
  same_detector s (set_threshold (set_y_true s v) t).
Proof. repeat split. Qed.
End Idempotence.

(** X14.  [learn_threshold] is idempotent: a second call on the instance left
    by a first call, with the same dataset, returns the same result (or
    raises the same exception) and leaves the instance as the first
    call left it. *)
Theorem learn_threshold_idempotent
  {F : Type} `{ScalarSqrt F}
  (roc_curve : list bool -> list F -> result (list F * list F * list F))
  (self : MSLD F) (dataset : list (sample F)) :
  learn_threshold roc_curve (fst (learn_threshold roc_curve self dataset)) dataset
  = learn_threshold roc_curve self dataset.
Proof.
  destruct (roc_cases roc_curve self dataset) as [[e He] | (yt & yp & Hroc)].
  - assert (H1 : learn_threshold roc_curve self dataset = (self, Raise e)).
    { unfold learn_threshold. now rewrite (He self (same_detector_refl self)). }
    rewrite H1. simpl. exact H1.
  - pose proof (Hroc self (same_detector_refl self)) as Hself.
    pose proof (Hroc _ (same_detector_set_y_true self yt)) as Hs1.
    destruct (roc_curve yt yp) as [[[fpr tpr] thresholds]|e] eqn:Hcurve.
    + destruct (do best_threshold_index <- np_argmax (zip_with (accuracy_at yt) tpr fpr);
                do threshold <- list_index thresholds best_threshold_index;
                do accuracy <- list_index (zip_with (accuracy_at yt) tpr fpr)
                                          best_threshold_index;
                Ok (threshold, accuracy)) as [[t a]|e] eqn:Hbest.
      * assert (H1 : learn_threshold roc_curve self dataset
                     = (set_threshold (set_y_true self yt) t, Ok (t, a))).
        { unfold learn_threshold. rewrite Hself. simpl. now rewrite Hbest. }
        rewrite H1. simpl fst.
        unfold learn_threshold. rewrite (Hroc _ (same_detector_set_both self yt t)).
        simpl. now rewrite Hbest.
      * assert (H1 : learn_threshold roc_curve self dataset
                     = (set_y_true self yt, Raise e)).
        { unfold learn_threshold. rewrite Hself. simpl. now rewrite Hbest. }
        rewrite H1. simpl fst.
        unfold learn_threshold. rewrite Hs1. simpl. now rewrite Hbest.
    + assert (H1 : learn_threshold roc_curve self dataset
                   = (set_y_true self yt, Raise e)).
      { unfold learn_threshold. now rewrite Hself. }
      rewrite H1. simpl fst.
      unfold learn_threshold. now rewrite Hs1.
Qed.

(** ** The analytic accuracy in exact arithmetic *)

Lemma py_sum_bounds (v : list bool) : 0 <= py_sum v <= py_len v.
Proof.
  rewrite py_len_filter, py_sum_filter. lia.
Qed.

Lemma inject_Z_nonneg (z : Z) : 0 <= z -> (0 <= inject_Z z)%Q.
Proof. intros Hz. unfold Qle. simpl. lia. Qed.

Lemma inject_Z_pos (z : Z) : 0 < z -> (0 < inject_Z z)%Q.
Proof. intros Hz. unfold Qlt. simpl. lia. Qed.

(** X15.  For rates between 0 and 1 and a non-empty vector of labels, the
    accuracy computed by [learn_threshold] for a ROC point lies between
    0 and 1; it is 1 at the point [tpr = 1], [fpr = 0]. *)
Theorem accuracy_at_bounds (y_true : list bool) (tpr_i fpr_i : Q) :
  y_true <> [] ->
  (0 <= tpr_i <= 1)%Q ->
  (0 <= fpr_i <= 1)%Q ->
  (0 <= accuracy_at y_true tpr_i fpr_i <= 1)%Q /\
  (accuracy_at y_true 1 0 == 1)%Q.
Proof.
  intros Hne [Ht0 Ht1] [Hf0 Hf1].
  pose proof (py_sum_bounds y_true) as [HP0 HP1].
  assert (Hlen : 0 < py_len y_true).
  { unfold py_len. destruct y_true; [congruence | simpl; lia]. }
  unfold accuracy_at. simpl.
  set (P := py_sum y_true) in *. set (T := py_len y_true) in *.
  pose proof (inject_Z_nonneg P HP0) as HPq.
  pose proof (inject_Z_nonneg (T - P) ltac:(lia)) as HNq.
  pose proof (inject_Z_pos T Hlen) as HTq.
  assert (HT : (inject_Z T == inject_Z P + inject_Z (T - P))%Q).
  { rewrite <- inject_Z_plus. now replace (P + (T - P)) with T by lia. }
  change (inject_Z 1) with 1%Q.
  generalize dependent (inject_Z P). generalize dependent (inject_Z (T - P)).
  generalize dependent (inject_Z T). intros t Ht n Hn p Hp Hsum.
  split; [split|].
  - apply Qle_shift_div_l; [assumption|]. nra.
  - apply Qle_shift_div_r; [assumption|]. nra.
  - field_simplify_eq; [lra | lra].
Qed.

Lemma accuracy_at_bounds_witness :
  (0 <= accuracy_at [true; false; false; true; true] (1 # 2) (1 # 4) <= 1)%Q /\
  (accuracy_at [true; false; false; true; true] 1 0 == 1)%Q.
Proof.
  apply accuracy_at_bounds; [discriminate | split; discriminate | split; discriminate].
Defined.

(** ** The Dice index in exact arithmetic *)


Lemma mat_zip_andb_comm (a b : matrix bool) : mat_zip andb a b = mat_zip andb b a.
Proof.
  unfold mat_zip. revert b.
  induction a as [|ra a IH]; intros [|rb b]; simpl; try reflexivity.
  f_equal; [|apply IH]. clear. revert rb.
  induction ra as [|x ra IH]; intros [|y rb]; simpl; try reflexivity.
  now rewrite andb_comm, IH.
Qed.

Lemma py_sum_app (u v : list bool) : py_sum (u ++ v) = py_sum u + py_sum v.
Proof. unfold py_sum. rewrite count_occ_app. lia. Qed.

Lemma py_sum_nonneg (v : list bool) : 0 <= py_sum v.
Proof. unfold py_sum. lia. Qed.

Lemma py_sum_zip_andb_le (u v : list bool) : py_sum (zip_with andb u v) <= py_sum u.
Proof.
  unfold py_sum. revert v.
  induction u as [|[|] u IH]; intros [|[|] v]; simpl; try lia;
    specialize (IH v); lia.
Qed.

Lemma count_true_intersection_le (a b : matrix bool) :
  count_true (mat_zip andb a b) <= count_true a.
Proof.
  unfold count_true, flatten, mat_zip. revert b.
  induction a as [|ra a IH]; intros [|rb b]; simpl; try reflexivity.
  - apply py_sum_nonneg.
  - rewrite !py_sum_app. pose proof (py_sum_zip_andb_le ra rb). specialize (IH b). lia.
Qed.

Lemma mat_zip_andb_diag (a : matrix bool) : mat_zip andb a a = a.
Proof.
  unfold mat_zip. induction a as [|ra a IH]; simpl; [reflexivity|].
  f_equal; [|exact IH]. clear. induction ra as [|x ra IH]; simpl; [reflexivity|].
  now rewrite andb_diag, IH.
Qed.


(** X18.  In exact arithmetic, for two boolean arrays of one shape that are
    not both all-false, the Dice index lies between 0 and 1; it is 0
    when no pixel is true in both arrays. *)
Theorem dice_bounds (targets predictions : matrix bool) :
  shape_eq targets predictions = true ->
  0 < count_true targets + count_true predictions ->
  exists x : Q,
    dice targets predictions = Ok x /\
    (0 <= x <= 1)%Q /\
    ((x == 0)%Q <-> count_true (mat_zip andb targets predictions) = 0).
Proof.
  intros Hs Hpos. unfold dice. rewrite Hs. eexists. split; [reflexivity|].
  pose proof (count_true_intersection_le targets predictions) as Ht.
  pose proof (count_true_intersection_le predictions targets) as Hp.
  rewrite <- mat_zip_andb_comm in Hp.
  assert (Hi : 0 <= count_true (mat_zip andb targets predictions)) by apply py_sum_nonneg.
  set (i := count_true (mat_zip andb targets predictions)) in *.
  set (d := count_true targets + count_true predictions) in *.
  simpl. pose proof (inject_Z_pos d Hpos) as Hd.
  split; [split|].
  - apply Qle_shift_div_l; [assumption|]. rewrite Qmult_0_l. apply inject_Z_nonneg. lia.
  - apply Qle_shift_div_r; [assumption|]. rewrite Qmult_1_l.
    rewrite <- Zle_Qle. lia.
  - split.
    + intros Hx. assert (H2 : (inject_Z (2 * i) == 0)%Q).
      { rewrite <- (Qmult_div_r (inject_Z (2 * i)) (inject_Z d)) by lra.
        rewrite Hx. ring. }
      unfold Qeq in H2. simpl in H2. lia.
    + intros Hi0. rewrite Hi0. unfold Qdiv. change (inject_Z (2 * 0)) with 0%Q.
      apply Qmult_0_l.
Qed.

Lemma dice_bounds_witness :
  exists x : Q,
    dice [[true; false; true]; [false; false; true]]
         [[false; false; true]; [true; false; true]] = Ok x /\
    (0 <= x <= 1)%Q.
Proof.
  destruct (dice_bounds [[true; false; true]; [false; false; true]]
                        [[false; false; true]; [true; false; true]])
    as (x & Hx & Hb & _); [reflexivity | reflexivity |].
  exists x. split; assumption.
Defined.

(** X19.  In exact arithmetic the Dice index of an array with itself is 1, as
    soon as the array has a true pixel. *)
Theorem dice_of_itself (a : matrix bool) :
  0 < count_true a ->
  exists x : Q, dice a a = Ok x /\ (x == 1)%Q.
Proof.
  intros Hpos. unfold dice.
  rewrite (shape_eq_true a a eq_refl), mat_zip_andb_diag.
  eexists. split; [reflexivity|]. simpl.
  pose proof (inject_Z_pos (count_true a) Hpos) as Hc.
  replace (2 * count_true a) with (count_true a + count_true a) by lia.
  field. rewrite inject_Z_plus. lra.
Qed.

Lemma dice_of_itself_witness :
  exists x : Q, dice [[true; false]; [true; true]] [[true; false]; [true; true]] = Ok x
                /\ (x == 1)%Q.
Proof. apply dice_of_itself. reflexivity. Defined.

(** ** Accuracies that are not numbers *)

(** A NaN compares [<=] with nothing. *)
Lemma float_nan_leb (x y : float) :
  s_isnan x = true -> PrimFloat.leb x y = false /\ PrimFloat.leb y x = false.
Proof.
  unfold s_isnan. simpl. rewrite !FloatAxioms.leb_spec. unfold SFleb, SFcompare.
  change (Pos.compare_cont Eq) with Pos.compare.
  destruct (Prim2SF x) as [[|]|[|]| |[|] mx ex]; simpl;
    rewrite ?Z.compare_refl, ?Pos.compare_refl; simpl; try discriminate.
  intros _. destruct (Prim2SF y) as [[|]|[|]| |[|] my ey]; split; reflexivity.
Qed.

(** [x != x], the test of the model, is the NaN test of the floats. *)
Lemma float_isnan (x : float) : s_isnan x = PrimFloat.is_nan x.
Proof.
  unfold s_isnan, PrimFloat.is_nan. simpl.
  rewrite FloatAxioms.leb_spec, FloatAxioms.eqb_spec. unfold SFleb, SFeqb, SFcompare.
  change (Pos.compare_cont Eq) with Pos.compare.
  destruct (Prim2SF x) as [[|]|[|]| |[|] mx ex]; simpl;
    rewrite ?Z.compare_refl, ?Pos.compare_refl; reflexivity.
Qed.

Lemma argmax_scan_nan_best (rest : list float) (i : nat) (best : float) (best_i : nat) :
  s_isnan best = true -> argmax_scan rest i best best_i = best_i.
Proof. intros Hb. destruct rest; simpl; [reflexivity | now rewrite Hb]. Qed.

(** The scan stops on the first NaN. *)
Lemma argmax_scan_first_nan (rest : list float) :
  forall (i : nat) (best : float) (best_i : nat),
    s_isnan best = false ->
    Exists (fun x => s_isnan x = true) rest ->
    exists k x,
      rest !! k = Some x /\ s_isnan x = true /\
      argmax_scan rest i best best_i = (i + k)%nat.
Proof.
  induction rest as [|x rest IH]; intros i best best_i Hbest Hex; [inversion Hex|].
  simpl. rewrite Hbest.
  destruct (s_isnan x) eqn:Hx.
  - destruct (float_nan_leb x best Hx) as [Hxb _]. simpl in Hxb |- *. rewrite Hxb.
    exists 0%nat, x. split; [reflexivity|]. split; [assumption|].
    rewrite argmax_scan_nan_best by assumption. symmetry. apply Nat.add_0_r.
  - assert (Hex' : Exists (fun x => s_isnan x = true) rest).
    { inversion Hex; subst; [congruence | assumption]. }
    destruct (PrimFloat.leb x best).
    + destruct (IH (S i) best best_i Hbest Hex') as (k & y & Hk & Hy & Hr).
      exists (S k), y. split; [assumption|]. split; [assumption|]. rewrite Hr. clear. lia.
    + destruct (IH (S i) x i Hx Hex') as (k & y & Hk & Hy & Hr).
      exists (S k), y. split; [assumption|]. split; [assumption|]. rewrite Hr. clear. lia.
Qed.

Lemma np_argmax_first_nan (v : list float) :
  Exists (fun x => s_isnan x = true) v ->
  exists i x, np_argmax v = Ok i /\ v !! i = Some x /\ s_isnan x = true.
Proof.
  intros Hex. destruct v as [|x0 rest]; [inversion Hex|]. simpl.
  destruct (s_isnan x0) eqn:Hx0.
  - exists 0%nat, x0. rewrite argmax_scan_nan_best by assumption. auto.
  - assert (Hex' : Exists (fun x => s_isnan x = true) rest).
    { inversion Hex; subst; [congruence | assumption]. }
    destruct (argmax_scan_first_nan rest 1 x0 0 Hx0 Hex') as (k & y & Hk & Hy & Hr).
    exists (S k), y. rewrite Hr. auto.
Qed.

Lemma accuracies_roi {F : Type} `{Scalar F} (dataset : list (sample F)) (tpr fpr : list F) :
  zip_with (accuracy_at (roi_labels dataset)) tpr fpr
  = zip_with (roc_accuracy (roi_count true dataset) (roi_count false dataset)) tpr fpr.
Proof.
  revert fpr. induction tpr as [|t tpr IH]; intros [|f fpr]; try reflexivity.
  cbn [zip_with]. now rewrite accuracy_at_roi, IH.
Qed.

(** X16.  In binary64, when [roc] returns a curve with as many thresholds as
    rates and one of the accuracies is a NaN, [learn_threshold] raises
    nothing: it stores and returns one of the thresholds, with an
    accuracy that is a NaN. *)
Theorem learn_threshold_nan_accuracy
  (roc_curve : list bool -> list float -> result (list float * list float * list float))
  (self self1 : MSLD float) (dataset : list (sample float))
  (fpr tpr thresholds : list float) :
  roc roc_curve self dataset = (self1, Ok (fpr, tpr, thresholds)) ->
  length fpr = length tpr ->
  length thresholds = length tpr ->
  Exists (fun a => s_isnan a = true)
         (zip_with (roc_accuracy (roi_count true dataset) (roi_count false dataset)) tpr fpr) ->
  exists i t a,
    learn_threshold roc_curve self dataset = (set_threshold self1 t, Ok (t, a)) /\
    thresholds !! i = Some t /\
    PrimFloat.is_nan a = true.
Proof.
  intros Hroc Hfpr Hthr Hnan.
  pose proof (roc_ok_state roc_curve _ _ _ _ Hroc) as Hself1.
  set (accuracies := zip_with (roc_accuracy (roi_count true dataset)
                                            (roi_count false dataset)) tpr fpr) in *.
  assert (Hacc : zip_with (accuracy_at (roi_labels dataset)) tpr fpr = accuracies)
    by apply accuracies_roi.
  assert (Hlen : length accuracies = length tpr).
  { unfold accuracies. rewrite length_zip_with. lia. }
  destruct (np_argmax_first_nan accuracies Hnan) as (i & a & Harg & Hia & Ha).
  assert (Hi : (i < length thresholds)%nat) by (apply lookup_lt_Some in Hia; lia).
  destruct (lookup_lt_is_Some_2 thresholds i Hi) as [t Ht].
  exists i, t, a. split; [|split; [assumption | now rewrite <- float_isnan]].
  unfold learn_threshold. rewrite Hroc.
  replace (y_true self1) with (Some (roi_labels dataset)) by now rewrite Hself1.
  rewrite Hacc, Harg. simpl. unfold list_index. rewrite Ht, Hia. reflexivity.
Qed.

Lemma learn_threshold_nan_accuracy_witness :
  exists (self self1 : MSLD float) (fpr tpr thresholds : list float),
    MSLD_init warp_identity 3 [3] 1 = Ok self /\
    roc Sklearn.roc_curve self one_class_dataset = (self1, Ok (fpr, tpr, thresholds)) /\
    exists i t a,
      learn_threshold Sklearn.roc_curve self one_class_dataset
      = (set_threshold self1 t, Ok (t, a)) /\
      thresholds !! i = Some t /\
      PrimFloat.is_nan a = true.
Proof.
  do 5 eexists. split; [vm_compute; reflexivity|].
  split; [vm_compute; reflexivity|].
  eapply (learn_threshold_nan_accuracy Sklearn.roc_curve).
  - vm_compute. reflexivity.
  - reflexivity.
  - reflexivity.
  - left. vm_compute. reflexivity.
Defined.

(** ** The base kernel *)

Lemma line_detector_row {F : Type} `{Scalar F} (l : Z) (i : nat) :
  (i < Z.to_nat l)%nat ->
  line_detector (F:=F) l !! i
  = Some (replicate (Z.to_nat l)
            (if Z.of_nat i =? l / 2 then s_div (s_of_Z 1) (s_of_Z l) else s_zero)).
Proof.
  intros Hi. unfold line_detector, np_zeros.
  rewrite list_lookup_imap, lookup_replicate_2 by assumption. simpl.
  destruct (Z.of_nat i =? l / 2); [now rewrite fmap_replicate | reflexivity].
Qed.

Lemma vec_sum_zero_rows (rows : matrix Q) :
  Forall (fun row => exists k, row = replicate k 0%Q) rows ->
  (vec_sum (concat rows) == 0)%Q.
Proof.
  induction 1 as [|row rows [k ->] _ IH]; simpl.
  - reflexivity.
  - rewrite vec_sum_app, IH, vec_sum_replicate. ring.
Qed.

(** X6.  The base kernel of a scale [l >= 1] is the [l] x [l] array that is
    [1 / l] on row [l // 2] and 0 elsewhere; in exact arithmetic it
    sums to 1. *)
Theorem line_detector_horizontal_line (l : Z) :
  1 <= l ->
  shape (line_detector (F:=Q) l) = replicate (Z.to_nat l) (Z.to_nat l) /\
  (forall i j, (i < Z.to_nat l)%nat -> (j < Z.to_nat l)%nat ->
     entry (line_detector (F:=Q) l) i j
     = Some (if Z.of_nat i =? l / 2 then (inject_Z 1 / inject_Z l)%Q else inject_Z 0)) /\
  (np_sum (line_detector (F:=Q) l) == 1)%Q.
Proof.
  intros Hl.
  assert (Hc : 0 <= l / 2 < l).
  { split; [apply Z.div_pos; lia | apply Z.div_lt_upper_bound; lia]. }
  split; [|split].
  - unfold shape. apply list_eq. intros i.
    rewrite list_lookup_fmap.
    destruct (decide (i < Z.to_nat l)%nat) as [Hi|Hi].
    + rewrite line_detector_row, lookup_replicate_2 by assumption.
      simpl. now rewrite length_replicate.
    + rewrite (proj1 (lookup_replicate_None _ _ _)) by lia.
      rewrite (proj2 (lookup_ge_None _ _)); [reflexivity|].
      unfold line_detector, np_zeros. rewrite length_imap, length_replicate. lia.
  - intros i j Hi Hj. unfold entry. rewrite line_detector_row by assumption.
    rewrite lookup_replicate_2 by assumption. reflexivity.
  - unfold np_sum, flatten.
    pose proof (line_detector_row (F:=Q) l (Z.to_nat (l / 2)) ltac:(lia)) as Hrow.
    rewrite Z2Nat.id, Z.eqb_refl in Hrow by lia.
    rewrite <- (take_drop_middle _ _ _ Hrow).
    rewrite concat_app. simpl concat. rewrite !vec_sum_app.
    rewrite (vec_sum_zero_rows (take _ _)), (vec_sum_zero_rows (drop _ _)).
    + rewrite vec_sum_replicate, Z2Nat.id by lia. simpl.
      change (inject_Z 1) with 1%Q. field. unfold Qeq. simpl. lia.
    + apply Forall_lookup. intros i row Hi. rewrite lookup_drop in Hi.
      assert (Hlt : (S (Z.to_nat (l / 2)) + i < Z.to_nat l)%nat).
      { apply lookup_lt_Some in Hi. unfold line_detector, np_zeros in Hi.
        now rewrite length_imap, length_replicate in Hi. }
      rewrite line_detector_row in Hi by assumption.
      replace (Z.of_nat (S (Z.to_nat (l / 2)) + i) =? l / 2) with false in Hi
        by (symmetry; apply Z.eqb_neq; lia).
      injection Hi as <-. eauto.
    + apply Forall_lookup. intros i row Hi.
      apply lookup_take_Some in Hi as [Hi Hlt].
      rewrite line_detector_row in Hi by lia.
      replace (Z.of_nat i =? l / 2) with false in Hi
        by (symmetry; apply Z.eqb_neq; lia).
      injection Hi as <-. eauto.
Qed.

Lemma line_detector_horizontal_line_witness :
  shape (line_detector (F:=Q) 4) = replicate (Z.to_nat 4) (Z.to_nat 4) /\
  (np_sum (line_detector (F:=Q) 4) == 1)%Q.
Proof.
  destruct (line_detector_horizontal_line 4) as (H1 & _ & H3); [lia|].
  split; assumption.
Defined.
